(** * Kokoro TTS results dashboard: a shallow embedding of [app.py]

    The script reads sample files from a folder, groups them by attempt
    number and renders them through Streamlit.  The embedding follows the
    source function by function:

    - text is a Rocq [string], its characters read as the code points 0 to
      255, where the decimal digits are [0]..[9];
    - a Python value produced by [json.load] is a [json] term, [None] being
      [JNull]; dictionaries keep their insertion order (association lists);
    - every [st.*] call appends one [st_call] to the page, and a Python
      exception ends the run: a computation is a pair of the calls made so
      far and an [outcome];
    - the file system is a read-only map from paths to nodes;
    - [json.loads] (the standard library decoder) is a parameter. *)

From Stdlib Require Import String Ascii List ZArith Bool Lia Arith.
From Stdlib Require Import Permutation Sorted.
From Stdlib Require Import Floats.SpecFloat.
Import ListNotations.

Local Open Scope string_scope.
Local Open Scope list_scope.
Set Warnings "-register-all".

(* ================================================================ *)
(** ** Text helpers (the [str] methods and [os.path] functions used) *)
(* ================================================================ *)

Definition newline : ascii := ascii_of_nat 10.
Definition slash : ascii := ascii_of_nat 47.
Definition dot : ascii := ascii_of_nat 46.

(** [strip_prefix p s] is [Some t] exactly when [s = p ++ t]. *)
Fixpoint strip_prefix (p s : string) : option string :=
  match p, s with
  | EmptyString, _ => Some s
  | String a p', String b s' =>
      if Ascii.eqb a b then strip_prefix p' s' else None
  | String _ _, EmptyString => None
  end.

(** [s.startswith(p)] *)
Definition starts_with (p s : string) : bool :=
  match strip_prefix p s with Some _ => true | None => false end.

(** [sub in s] for two [str] operands. *)
Fixpoint contains (sub s : string) : bool :=
  starts_with sub s ||
  match s with
  | EmptyString => false
  | String _ s' => contains sub s'
  end.

(** [s.endswith(suffix)] *)
Fixpoint ends_with (suffix s : string) : bool :=
  String.eqb suffix s ||
  match s with
  | EmptyString => false
  | String _ s' => ends_with suffix s'
  end.

Fixpoint has_char (c : ascii) (s : string) : bool :=
  match s with
  | EmptyString => false
  | String x s' => Ascii.eqb x c || has_char c s'
  end.

(** [s.rfind(c)] for a one-character [c]; [None] stands for [-1]. *)
Fixpoint rfind (c : ascii) (s : string) : option nat :=
  match s with
  | EmptyString => None
  | String x s' =>
      match rfind c s' with
      | Some i => Some (S i)
      | None => if Ascii.eqb x c then Some 0 else None
      end
  end.

(** [os.path.basename(p)]: the text after the last [/]. *)
Definition basename (p : string) : string :=
  match rfind slash p with
  | Some i => substring (S i) (String.length p - S i) p
  | None => p
  end.

(** [os.path.splitext(p)[0]] (posixpath): the extension starts at the last
    dot of the last path component, unless only dots precede it there. *)
Definition splitext_root (p : string) : string :=
  match rfind dot p with
  | None => p
  | Some d =>
      let start := match rfind slash p with Some i => S i | None => 0 end in
      if (start <=? d)%nat then
        let lead := substring start (d - start) p in
        if String.eqb lead (String.concat "" (repeat "." (String.length lead)))
        then p
        else substring 0 d p
      else p
  end.

(** [os.path.join(a, b)] (posixpath, two components). *)
Definition path_join (a b : string) : string :=
  if starts_with "/" b then b
  else if String.eqb a "" then b
  else if ends_with "/" a then a ++ b
  else a ++ "/" ++ b.

(* ================================================================ *)
(** ** Python values read from JSON files *)
(* ================================================================ *)

Inductive json : Type :=
| JNull                                   (* None *)
| JBool (b : bool)
| JInt (n : Z)
| JFloat (f : spec_float)
| JStr (s : string)
| JArr (items : list json)
| JObj (fields : list (string * json)).   (* dict, insertion ordered *)

(** The exceptions the script can meet; all derive from [Exception]. *)
Inductive exn : Type :=
| FileNotFoundError (path : string)
| IsADirectoryError (path : string)
| PermissionError (path : string)
| JSONDecodeError (msg : string)
| TypeError (msg : string)
| ValueError (msg : string)
| KeyError (key : string)
| IndexError (msg : string).

Inductive outcome (A : Type) : Type :=
| Done (a : A)
| Raised (e : exn).
Arguments Done {A} a.
Arguments Raised {A} e.

(** Truth value of a Python object ([if x:]). *)
Definition truthy (v : json) : bool :=
  match v with
  | JNull => false
  | JBool b => b
  | JInt n => negb (Z.eqb n 0)
  | JFloat (S754_zero _) => false
  | JFloat _ => true
  | JStr s => negb (String.eqb s "")
  | JArr items => match items with [] => false | _ => true end
  | JObj fields => match fields with [] => false | _ => true end
  end.

Fixpoint dict_get (key : string) (fields : list (string * json)) : option json :=
  match fields with
  | [] => None
  | (k, v) :: rest => if String.eqb k key then Some v else dict_get key rest
  end.

(** [key in container] for a [str] key. *)
Definition py_contains (key : string) (container : json) : outcome bool :=
  match container with
  | JObj fields =>
      Done (match dict_get key fields with Some _ => true | None => false end)
  | JArr items =>
      Done (existsb (fun x => match x with
                              | JStr s => String.eqb s key
                              | _ => false
                              end) items)
  | JStr s => Done (contains key s)
  | JNull => Raised (TypeError "argument of type 'NoneType' is not iterable")
  | JBool _ => Raised (TypeError "argument of type 'bool' is not iterable")
  | JInt _ => Raised (TypeError "argument of type 'int' is not iterable")
  | JFloat _ => Raised (TypeError "argument of type 'float' is not iterable")
  end.

(** [container[key]] for a [str] key. *)
Definition py_getitem (container : json) (key : string) : outcome json :=
  match container with
  | JObj fields =>
      match dict_get key fields with
      | Some v => Done v
      | None => Raised (KeyError key)
      end
  | JArr _ => Raised (TypeError "list indices must be integers or slices, not str")
  | JStr _ => Raised (TypeError "string indices must be integers, not 'str'")
  | _ => Raised (TypeError "object is not subscriptable")
  end.

(* ================================================================ *)
(** ** The page: Streamlit calls and the computations that make them *)
(* ================================================================ *)

(** A formatted string: literal text and interpolated values.  [str(v)] of
    a value that is not a [str] is kept symbolic. *)
Inductive piece : Type :=
| Lit (s : string)
| Val (v : json)        (* {v}  *)
| Exc (e : exn).        (* {e}  *)

Definition text := list piece.

Inductive st_call : Type :=
| StHeader (title : string)
| StSubheader (title : string)
| StInfo (msg : string)
| StError (msg : text)
| StMarkdown (body : text)
| StJson (body : json)
| StAudio (data : string) (format : string).

(** A computation: the calls made, then a result or the exception that
    stopped it. *)
Definition ui (A : Type) : Type := (list st_call * outcome A)%type.

Definition ret {A} (a : A) : ui A := ([], Done a).
Definition raise {A} (e : exn) : ui A := ([], Raised e).
Definition emit (c : st_call) : ui unit := ([c], Done tt).
Definition lift {A} (r : outcome A) : ui A := ([], r).

Definition bind {A B} (m : ui A) (k : A -> ui B) : ui B :=
  match m with
  | (out, Done a) => let '(out', r) := k a in (out ++ out', r)
  | (out, Raised e) => (out, Raised e)
  end.

(** [try: m  except Exception as e: h e] *)
Definition try_except {A} (m : ui A) (h : exn -> ui A) : ui A :=
  match m with
  | (out, Raised e) => let '(out', r) := h e in (out ++ out', r)
  | (out, Done a) => (out, Done a)
  end.

Notation "x <- m ;; k" := (bind m (fun x => k))
  (at level 61, m at next level, right associativity).
Notation "m ;;; k" := (bind m (fun _ => k))
  (at level 61, right associativity).

(** [for x in xs: body x] *)
Fixpoint for_each {A} (xs : list A) (body : A -> ui unit) : ui unit :=
  match xs with
  | [] => ret tt
  | x :: rest => body x ;;; for_each rest body
  end.

Definition calls {A} (m : ui A) : list st_call := fst m.
Definition result {A} (m : ui A) : outcome A := snd m.

(* ================================================================ *)
(** ** The file system *)
(* ================================================================ *)

Inductive node : Type :=
| Absent
| Directory (entries : list string)
| File (readable : bool) (data : string).

Definition world := string -> node.

(** [os.path.exists(path)] *)
Definition path_exists (w : world) (path : string) : bool :=
  match w path with Absent => false | _ => true end.

(** [open(path, mode).read()] *)
Definition read_file (w : world) (path : string) : outcome string :=
  match w path with
  | Absent => Raised (FileNotFoundError path)
  | Directory _ => Raised (IsADirectoryError path)
  | File false _ => Raised (PermissionError path)
  | File true data => Done data
  end.

(** Names of a directory's entries; [glob] sees nothing elsewhere. *)
Definition listdir (w : world) (folder : string) : list string :=
  match w folder with Directory entries => entries | _ => [] end.

(** Stable insertion sort, the order [sorted] produces. *)
Fixpoint insert_sorted {A} (le : A -> A -> bool) (x : A) (l : list A) : list A :=
  match l with
  | [] => [x]
  | y :: rest => if le x y then x :: l else y :: insert_sorted le x rest
  end.

Definition sorted {A} (le : A -> A -> bool) (l : list A) : list A :=
  fold_right (insert_sorted le) [] l.

(** [glob.glob(os.path.join(folder, "*.json"))]: the entries of [folder]
    whose names end in [.json], hidden names left out. *)
Definition glob_json (w : world) (folder : string) : list string :=
  map (path_join folder)
      (filter (fun name => ends_with ".json" name && negb (starts_with "." name))
              (listdir w folder)).

(* ================================================================ *)
(** ** Regular expressions *)
(* ================================================================ *)

(** A compiled pattern with two capture groups, seen through [regex.match]:
    [None] when the name does not match, otherwise the texts of groups 1
    and 2. *)
Definition matcher := string -> option (string * string).

Definition is_digit (c : ascii) : bool :=
  let n := nat_of_ascii c in (48 <=? n)%nat && (n <=? 57)%nat.

(** The longest run of digits at the head of [s], and what follows it. *)
Fixpoint span_digits (s : string) : string * string :=
  match s with
  | String c s' =>
      if is_digit c
      then let '(ds, rest) := span_digits s' in (String c ds, rest)
      else (EmptyString, s)
  | EmptyString => (EmptyString, EmptyString)
  end.

Definition marker : string := "-attempt-".

(** What must follow group 1 in [^(.*?)-attempt-(\d+)\.json$]: the marker,
    one or more digits, [.json], and the end of the name ([$] also accepts
    one final line feed).  Returns group 2. *)
Definition attempt_tail (s : string) : option string :=
  match strip_prefix marker s with
  | None => None
  | Some after =>
      let '(digits, rest) := span_digits after in
      if String.eqb digits "" then None
      else if String.eqb rest ".json" ||
              String.eqb rest (".json" ++ String newline EmptyString)
      then Some digits
      else None
  end.

(** [re.compile(r"^(.*?)-attempt-(\d+)\.json$").match]: the lazy group 1
    grows one character at a time, never over a line feed, until the rest
    of the pattern matches. *)
Fixpoint attempt_pattern (s : string) : option (string * string) :=
  match attempt_tail s with
  | Some digits => Some (EmptyString, digits)
  | None =>
      match s with
      | EmptyString => None
      | String c s' =>
          if Ascii.eqb c newline then None
          else match attempt_pattern s' with
               | Some (voice, digits) => Some (String c voice, digits)
               | None => None
               end
      end
  end.

(** Group 1 of [re.match(r"^(.*?)-attempt-", filename)]. *)
Fixpoint voice_match (s : string) : option string :=
  if starts_with marker s then Some EmptyString
  else match s with
       | EmptyString => None
       | String c s' =>
           if Ascii.eqb c newline then None
           else match voice_match s' with
                | Some voice => Some (String c voice)
                | None => None
                end
       end.

(** Lines 70-71. *)
Definition voice_of (filename : string) : string :=
  match voice_match filename with
  | Some voice => voice
  | None => "unknown"
  end.

(* ================================================================ *)
(** ** Grouping (lines 30-45) *)
(* ================================================================ *)

(** The dictionary [groups]: attempt -> paths, in insertion order. *)
Definition groups := list (string * list string).

Fixpoint lookup (attempt : string) (g : groups) : option (list string) :=
  match g with
  | [] => None
  | (k, paths) :: rest =>
      if String.eqb k attempt then Some paths else lookup attempt rest
  end.

Definition keys (g : groups) : list string := map fst g.

(** [groups.setdefault(attempt, []).append(filepath)] *)
Fixpoint setdefault_append (attempt filepath : string) (g : groups) : groups :=
  match g with
  | [] => [(attempt, [filepath])]
  | (k, paths) :: rest =>
      if String.eqb k attempt
      then (k, paths ++ [filepath]) :: rest
      else (k, paths) :: setdefault_append attempt filepath rest
  end.

(** One turn of the loop of lines 38-44. *)
Definition group_step (pattern : matcher) (g : groups) (filepath : string) : groups :=
  match pattern (basename filepath) with
  | Some (_, attempt) => setdefault_append attempt filepath g
  | None => g
  end.

Definition group_by_attempt (json_files : list string) (pattern : matcher) : groups :=
  fold_left (group_step pattern) json_files [].

(* ================================================================ *)
(** ** [int(x)] on a [str] and the order of the attempts (line 56) *)
(* ================================================================ *)

(** White space, as [int] strips it from both ends of its argument. *)
Definition is_space (c : ascii) : bool :=
  let n := nat_of_ascii c in
  ((9 <=? n)%nat && (n <=? 13)%nat) ||
  (n =? 32)%nat || (n =? 133)%nat || (n =? 160)%nat.

Fixpoint lstrip (s : string) : string :=
  match s with
  | String c s' => if is_space c then lstrip s' else s
  | EmptyString => EmptyString
  end.

Fixpoint rstrip (s : string) : string :=
  match s with
  | String c s' =>
      let r := rstrip s' in
      if String.eqb r "" && is_space c then EmptyString else String c r
  | EmptyString => EmptyString
  end.

Definition digit_value (c : ascii) : Z := Z.of_nat (nat_of_ascii c - 48).

(** Decimal digits with single underscores between them. *)
Fixpoint int_digits (acc : Z) (after_digit : bool) (s : string) : option Z :=
  match s with
  | EmptyString => if after_digit then Some acc else None
  | String c s' =>
      if is_digit c then int_digits (10 * acc + digit_value c) true s'
      else if Ascii.eqb c "_" && after_digit then int_digits acc false s'
      else None
  end.

(** [int(x)] for a [str] argument, base ten (without the interpreter's
    configurable cap on the number of digits, which no file name reaches). *)
Definition py_int (x : string) : outcome Z :=
  let body := rstrip (lstrip x) in
  let '(negative, magnitude) :=
    match body with
    | String c rest =>
        if Ascii.eqb c "-" then (true, rest)
        else if Ascii.eqb c "+" then (false, rest)
        else (false, body)
    | EmptyString => (false, body)
    end in
  match int_digits 0 false magnitude with
  | Some n => Done (if negative then (- n)%Z else n)
  | None => Raised (ValueError "invalid literal for int() with base 10")
  end.

(** The keys [sorted] compares: [int(x)] of every element, in order; the
    first exception ends the call. *)
Fixpoint decorate (xs : list string) : outcome (list (Z * string)) :=
  match xs with
  | [] => Done []
  | x :: rest =>
      match py_int x with
      | Raised e => Raised e
      | Done n =>
          match decorate rest with
          | Raised e => Raised e
          | Done tagged => Done ((n, x) :: tagged)
          end
      end
  end.

(** [sorted(groups.keys(), key=lambda x: int(x))] *)
Definition attempt_order (g : groups) : outcome (list string) :=
  match decorate (keys g) with
  | Raised e => Raised e
  | Done tagged =>
      Done (map snd (sorted (fun a b => Z.leb (fst a) (fst b)) tagged))
  end.

(* ================================================================ *)
(** ** Vocabulary of the statements *)
(* ================================================================ *)

(** The paths of [json_files] that [pattern] sends to [attempt]. *)
Definition in_attempt (pattern : matcher) (attempt filepath : string) : bool :=
  match pattern (basename filepath) with
  | Some (_, a) => String.eqb a attempt
  | None => false
  end.

Fixpoint all_digits (s : string) : bool :=
  match s with
  | EmptyString => true
  | String c s' => is_digit c && all_digits s'
  end.

(** A decimal digit string: one or more of [0]..[9]. *)
Definition digit_string (s : string) : bool :=
  negb (String.eqb s "") && all_digits s.

Fixpoint decimal (acc : Z) (s : string) : Z :=
  match s with
  | EmptyString => acc
  | String c s' => decimal (10 * acc + digit_value c) s'
  end.

(** The number a decimal digit string denotes. *)
Definition numeric_value (s : string) : Z := decimal 0 s.


Definition attempt_title (attempt : string) : string := "Attempt " ++ attempt.

Definition is_json_tree (c : st_call) : bool :=
  match c with StJson _ => true | _ => false end.


Definition could_not_load : st_call := StError [Lit "Could not load JSON data."].

Definition no_prompt : st_call :=
  StMarkdown [Lit "**Prompt:** (no description available)"].

(** The voice label as the specification words it: the text before the
    first occurrence of the marker, [unknown] without one. *)
Fixpoint before_marker (s : string) : option string :=
  if starts_with marker s then Some EmptyString
  else match s with
       | EmptyString => None
       | String c s' =>
           match before_marker s' with
           | Some pre => Some (String c pre)
           | None => None
           end
       end.

Definition spec_voice (filename : string) : string :=
  match before_marker filename with
  | Some pre => pre
  | None => "unknown"
  end.

(** The error [load_json] shows for the exception [e]. *)
Definition load_error (filepath : string) (e : exn) : st_call :=
  StError [Lit "Error loading JSON file "; Lit filepath; Lit ": "; Exc e].

(** The pair [sorted] orders for a digit-string key, and its comparison. *)
Definition tag (k : string) : Z * string := (numeric_value k, k).

Definition by_key (a b : Z * string) : bool := Z.leb (fst a) (fst b).


(** The audio path the renderer derives for a JSON path (line 73). *)
Definition wav_of (folder json_file : string) : string :=
  path_join folder (splitext_root (basename json_file) ++ ".wav").

(** The two endings a matching name can have after its digits. *)
Definition json_end : string := ".json".
Definition json_end_lf : string := (".json" ++ String newline EmptyString)%string.


Definition voice_line (json_file : string) : st_call :=
  StMarkdown [Lit "**Voice:** "; Lit (voice_of (basename json_file))].

(** The outline of a page: its subsection titles and its voice labels, in
    page order. *)
Inductive outline_item : Type :=
| Subsection (title : string)
| Voice (label : string).

Definition outline_of (c : st_call) : list outline_item :=
  match c with
  | StSubheader t => [Subsection t]
  | StMarkdown [Lit a; Lit v] =>
      if String.eqb a "**Voice:** " then [Voice v] else []
  | _ => []
  end.

Definition outline (page : list st_call) : list outline_item :=
  flat_map outline_of page.

(** [groups[attempt]], empty for a key that is not there. *)
Definition group_of (g : groups) (attempt : string) : list string :=
  match lookup attempt g with
  | Some paths => paths
  | None => []
  end.

(** The outline one attempt is expected to contribute: its title, then the
    voice of each of its files. *)
Definition attempt_outline (g : groups) (attempt : string) : list outline_item :=
  Subsection (attempt_title attempt) ::
  map (fun f => Voice (voice_of (basename f))) (group_of g attempt).

(** [pre] is followed by the marker in [s] ... *)
Definition occurs_after (pre s : string) : Prop :=
  exists post, s = (pre ++ marker ++ post)%string.

(** ... and no occurrence of the marker starts earlier. *)
Definition first_occurrence (pre s : string) : Prop :=
  occurs_after pre s /\
  forall pre', occurs_after pre' s -> (String.length pre <= String.length pre')%nat.

(* ================================================================ *)
(** ** Sample data for the examples *)
(* ================================================================ *)

Definition dq : string := String (ascii_of_nat 34) EmptyString.

(** The text [{"input_text": "Hello world"}] and its document. *)
Definition hello_text : string :=
  "{" ++ dq ++ "input_text" ++ dq ++ ": " ++ dq ++ "Hello world" ++ dq ++ "}".

Definition hello_doc : json := JObj [("input_text", JStr "Hello world")].

(** The decoder on the documents the examples use; any other text is
    taken as malformed. *)
Definition sample_loads (data : string) : outcome json :=
  if String.eqb data hello_text then Done hello_doc
  else if String.eqb data "{}" then Done (JObj [])
  else if String.eqb data "null" then Done JNull
  else if String.eqb data "1" then Done (JInt 1)
  else Raised (JSONDecodeError "Expecting value").

Definition alloy_json : string := "samples/af_alloy-attempt-1.json".
Definition alloy_wav : string := "samples/af_alloy-attempt-1.wav".

(** A pattern that matches every name, with an empty group 1 and the whole
    name as group 2 (two groups, the second one a greedy any-character run
    under the DOTALL flag). *)
Definition whole_name_pattern : matcher := fun name => Some (EmptyString, name).


(** A map from paths to nodes given by its graph. *)
Fixpoint world_of (nodes : list (string * node)) : world :=
  fun path =>
    match nodes with
    | [] => Absent
    | (p, n) :: rest => if String.eqb p path then n else world_of rest path
    end.

(** Two voices of attempt 1, each with its audio. *)
Definition two_voices : world :=
  world_of
    [("samples", Directory ["af_bright-attempt-1.wav"; "af_bright-attempt-1.json";
                            "af_alloy-attempt-1.json"; "af_alloy-attempt-1.wav"]);
     ("samples/af_alloy-attempt-1.json", File true hello_text);
     ("samples/af_alloy-attempt-1.wav", File true "RIFF-alloy");
     ("samples/af_bright-attempt-1.json", File true hello_text);
     ("samples/af_bright-attempt-1.wav", File true "RIFF-bright")].

(** One sample whose document is the empty object. *)
Definition empty_object : world :=
  world_of
    [("samples", Directory ["af_alloy-attempt-1.json"; "af_alloy-attempt-1.wav"]);
     ("samples/af_alloy-attempt-1.json", File true "{}");
     ("samples/af_alloy-attempt-1.wav", File true "RIFF-alloy")].

(** One sample whose document is the number 1. *)
Definition number_document : world :=
  world_of
    [("samples", Directory ["af_alloy-attempt-1.json"; "af_alloy-attempt-1.wav"]);
     ("samples/af_alloy-attempt-1.json", File true "1");
     ("samples/af_alloy-attempt-1.wav", File true "RIFF-alloy")].

(** One sample whose audio path is a directory. *)
Definition audio_is_directory : world :=
  world_of
    [("samples", Directory ["af_alloy-attempt-1.json"; "af_alloy-attempt-1.wav"]);
     ("samples/af_alloy-attempt-1.json", File true hello_text);
     ("samples/af_alloy-attempt-1.wav", Directory [])].

(** One sample whose audio file exists and cannot be read. *)
Definition audio_unreadable : world :=
  world_of
    [("samples", Directory ["af_alloy-attempt-1.json"; "af_alloy-attempt-1.wav"]);
     ("samples/af_alloy-attempt-1.json", File true hello_text);
     ("samples/af_alloy-attempt-1.wav", File false "RIFF-alloy")].

(** A folder whose only JSON file does not follow the naming pattern. *)
Definition bad_name : world :=
  world_of
    [("samples", Directory ["badname.json"; "badname.wav"]);
     ("samples/badname.json", File true hello_text);
     ("samples/badname.wav", File true "RIFF-bad")].

(** Attempts 2, 10 and 1 of one voice; the second document is JSON [null],
    the third file cannot be read, and no audio exists. *)
Definition three_attempts : world :=
  world_of
    [("samples", Directory ["v-attempt-2.json"; "v-attempt-10.json"; "v-attempt-1.json"]);
     ("samples/v-attempt-2.json", File true hello_text);
     ("samples/v-attempt-10.json", File true "null");
     ("samples/v-attempt-1.json", File false hello_text)].

Section Dashboard.

(** [json.loads]: the decoded document, or the exception the decoder raises. *)
Variable json_loads : string -> outcome json.

(** [with open(filepath, "r") as f: return json.load(f)] *)
Definition read_json (w : world) (filepath : string) : outcome json :=
  match read_file w filepath with
  | Done data => json_loads data
  | Raised e => Raised e
  end.

(** Lines 10-16. *)
Definition load_json (w : world) (filepath : string) : ui json :=
  try_except
    (lift (read_json w filepath))
    (fun e =>
       emit (StError [Lit "Error loading JSON file "; Lit filepath; Lit ": "; Exc e]) ;;;
       ret JNull).

(** Lines 18-28. *)
Definition display_sample (w : world) (json_path wav_path : string) : ui unit :=
  sample_data <- load_json w json_path ;;
  (if truthy sample_data
   then emit (StJson sample_data)
   else emit (StError [Lit "Could not load JSON data."])) ;;;
  (if path_exists w wav_path
   then data <- lift (read_file w wav_path) ;;
        emit (StAudio data "audio/wav")
   else emit (StError [Lit "WAV file not found: "; Lit wav_path])).

(** Lines 60-65: the prompt of a group, from its first file's document. *)
Definition show_prompt (first_json : json) : ui unit :=
  has_prompt <- (if truthy first_json
                 then lift (py_contains "input_text" first_json)
                 else ret false) ;;
  if has_prompt
  then prompt <- lift (py_getitem first_json "input_text") ;;
       emit (StMarkdown [Lit "**Prompt:** "; Val prompt])
  else emit (StMarkdown [Lit "**Prompt:** (no description available)"]).

(** Lines 68-76: one sample of a group. *)
Definition show_sample (w : world) (folder json_file : string) : ui unit :=
  let filename := basename json_file in
  let voice := voice_of filename in
  let wav_file := path_join folder (splitext_root filename ++ ".wav") in
  emit (StMarkdown [Lit "**Voice:** "; Lit voice]) ;;;
  display_sample w json_file wav_file ;;;
  emit (StMarkdown [Lit "---"]).

(** Lines 57-77: the body of the loop over the attempts. *)
Definition show_attempt (w : world) (folder : string) (g : groups)
    (attempt : string) : ui unit :=
  emit (StSubheader ("Attempt " ++ attempt)) ;;;
  group_files <- (match lookup attempt g with
                  | Some paths => ret paths
                  | None => raise (KeyError attempt)
                  end) ;;
  first_file <- (match group_files with
                 | first :: _ => ret first
                 | [] => raise (IndexError "list index out of range")
                 end) ;;
  first_json <- load_json w first_file ;;
  show_prompt first_json ;;;
  for_each group_files (show_sample w folder) ;;;
  emit (StMarkdown [Lit "###"]).

(** Lines 56-77: the loop over the attempts of a grouping. *)
Definition show_groups (w : world) (folder : string) (g : groups) : ui unit :=
  order <- lift (attempt_order g) ;;
  for_each order (show_attempt w folder g).

(** Lines 47-77. *)
Definition display_grouped_samples (w : world) (folder title : string)
    (regex_pattern : matcher) : ui unit :=
  emit (StHeader title) ;;;
  let json_files := sorted String.leb (glob_json w folder) in
  match json_files with
  | [] => emit (StInfo ("No JSON files found in the '" ++ folder ++ "' folder."))
  | _ => show_groups w folder (group_by_attempt json_files regex_pattern)
  end.

(** Line 108. *)
Definition samples_section (w : world) : ui unit :=
  display_grouped_samples w "samples" "Samples" attempt_pattern.

(** The file states in which the loader cannot produce a document. *)
Definition cannot_load (w : world) (filepath : string) : Prop :=
  w filepath = Absent \/
  (exists entries, w filepath = Directory entries) \/
  (exists data, w filepath = File false data) \/
  (exists data e, w filepath = File true data /\ json_loads data = Raised e).

(** What [display_sample] shows for the metadata (lines 19-23) ... *)
Definition metadata_part (w : world) (json_path : string) : list st_call :=
  match read_json w json_path with
  | Done doc => [if truthy doc then StJson doc else could_not_load]
  | Raised e => [load_error json_path e; could_not_load]
  end.

(** ... and what it does for the audio (lines 24-28). *)
Definition audio_part (w : world) (wav_path : string) : ui unit :=
  if path_exists w wav_path
  then match read_file w wav_path with
       | Done data => ([StAudio data "audio/wav"], Done tt)
       | Raised e => ([], Raised e)
       end
  else ([StError [Lit "WAV file not found: "; Lit wav_path]], Done tt).

(** A document on which lines 62-63 raise nothing for sure: a falsy value
    or an object. *)
Definition prompt_safe (doc : json) : Prop :=
  truthy doc = false \/ exists fields, doc = JObj fields.

(** An audio path the presenter can handle: nothing there, or a file that
    can be read. *)
Definition audio_safe (w : world) (wav_path : string) : Prop :=
  w wav_path = Absent \/ exists data, w wav_path = File true data.




(* ================================================================ *)
(** ** Computations: how calls and results compose *)
(* ================================================================ *)

Lemma bind_done {A B} (out : list st_call) (a : A) (k : A -> ui B) :
  bind (out, Done a) k = (out ++ calls (k a), result (k a)).
Proof. unfold bind, calls, result. destruct (k a); reflexivity. Qed.

Lemma bind_raised {A B} (out : list st_call) (e : exn) (k : A -> ui B) :
  bind (out, Raised e) k = (out, Raised e).
Proof. reflexivity. Qed.

Lemma calls_bind {A B} (m : ui A) (k : A -> ui B) :
  calls (bind m k) =
  calls m ++ match result m with Done a => calls (k a) | Raised _ => [] end.
Proof.
  destruct m as [out [a | e]]; unfold bind, calls, result; simpl.
  - destruct (k a); reflexivity.
  - rewrite app_nil_r. reflexivity.
Qed.

Lemma result_bind {A B} (m : ui A) (k : A -> ui B) :
  result (bind m k) =
  match result m with Done a => result (k a) | Raised e => Raised e end.
Proof.
  destruct m as [out [a | e]]; unfold bind, calls, result; simpl.
  - destruct (k a); reflexivity.
  - reflexivity.
Qed.

Lemma ui_eta {A} (m : ui A) : m = (calls m, result m).
Proof. destruct m; reflexivity. Qed.

Lemma bind_ret_l {A B} (a : A) (k : A -> ui B) : bind (ret a) k = k a.
Proof. unfold bind, ret. destruct (k a); reflexivity. Qed.

Lemma bind_ext {A B} (m : ui A) (k k' : A -> ui B) :
  (forall a, k a = k' a) -> bind m k = bind m k'.
Proof.
  intros H. destruct m as [out [a | e]]; unfold bind; [rewrite H |]; reflexivity.
Qed.

(* ================================================================ *)
(** ** The JSON loader and the sample presenter *)
(* ================================================================ *)

Lemma load_json_done (w : world) (filepath : string) (doc : json) :
  read_json w filepath = Done doc ->
  load_json w filepath = ([], Done doc).
Proof. intros H. unfold load_json. rewrite H. reflexivity. Qed.

Lemma load_json_raised (w : world) (filepath : string) (e : exn) :
  read_json w filepath = Raised e ->
  load_json w filepath = ([load_error filepath e], Done JNull).
Proof. intros H. unfold load_json. rewrite H. reflexivity. Qed.

Lemma read_json_done_iff (w : world) (filepath : string) (doc : json) :
  read_json w filepath = Done doc <->
  exists data, w filepath = File true data /\ json_loads data = Done doc.
Proof.
  unfold read_json, read_file. split.
  - destruct (w filepath) as [| entries | [|] data]; try discriminate.
    intros H. exists data. split; [reflexivity | exact H].
  - intros [data [Hw Hd]]. rewrite Hw. exact Hd.
Qed.

Lemma read_json_raised_iff (w : world) (filepath : string) :
  cannot_load w filepath <-> exists e, read_json w filepath = Raised e.
Proof.
  unfold cannot_load, read_json, read_file. split.
  - intros [H | [[entries H] | [[data H] | [data [e [H He]]]]]]; rewrite H.
    + eexists; reflexivity.
    + eexists; reflexivity.
    + eexists; reflexivity.
    + exists e. exact He.
  - intros [e He]. destruct (w filepath) as [| entries | [|] data].
    + left. reflexivity.
    + right. left. exists entries. reflexivity.
    + right. right. right. exists data, e. split; [reflexivity | exact He].
    + right. right. left. exists data. reflexivity.
Qed.

(** C3. [load_json] returns the decoded document, with nothing shown, when
    the file is there, can be read and decodes; when the file is missing,
    is a directory, cannot be read or does not decode, it shows exactly one
    error and returns [None]; and it returns a value in every case: no
    exception leaves it. *)
Theorem load_json_contract (w : world) (filepath : string) :
  (forall data doc,
      w filepath = File true data -> json_loads data = Done doc ->
      load_json w filepath = ([], Done doc)) /\
  (cannot_load w filepath ->
   exists e, read_json w filepath = Raised e /\
             load_json w filepath = ([load_error filepath e], Done JNull)) /\
  (exists page doc, load_json w filepath = (page, Done doc) /\
                    (length page <= 1)%nat).
Proof.
  split; [| split].
  - intros data doc Hw Hd. apply load_json_done.
    apply read_json_done_iff. exists data. split; assumption.
  - intros H. apply read_json_raised_iff in H. destruct H as [e He].
    exists e. split; [exact He | apply load_json_raised; exact He].
  - destruct (read_json w filepath) as [doc | e] eqn:Hr.
    + exists [], doc. split; [apply load_json_done; exact Hr | simpl; lia].
    + exists [load_error filepath e], JNull.
      split; [apply load_json_raised; exact Hr | simpl; lia].
Qed.

(** The presenter is the metadata display followed by the audio display:
    the first depends on the JSON path only, the second on the audio path
    only. *)
Lemma display_sample_parts (w : world) (json_path wav_path : string) :
  display_sample w json_path wav_path =
  (metadata_part w json_path ++ calls (audio_part w wav_path),
   result (audio_part w wav_path)).
Proof.
  unfold display_sample, metadata_part, audio_part.
  destruct (read_json w json_path) as [doc | e] eqn:Hr.
  - rewrite (load_json_done _ _ _ Hr). cbv beta iota delta [bind].
    destruct (truthy doc), (path_exists w wav_path);
      try destruct (read_file w wav_path); reflexivity.
  - rewrite (load_json_raised _ _ _ Hr). cbv beta iota delta [bind truthy].
    destruct (path_exists w wav_path);
      try destruct (read_file w wav_path); reflexivity.
Qed.

Lemma falsy_documents (doc : json) :
  truthy doc = false <->
  doc = JNull \/ doc = JBool false \/ doc = JInt 0 \/
  (exists sign, doc = JFloat (S754_zero sign)) \/
  doc = JStr "" \/ doc = JObj [] \/ doc = JArr [].
Proof.
  split.
  - destruct doc as [| b | n | f | s | items | fields]; simpl; intros H.
    + left. reflexivity.
    + right. left. destruct b; [discriminate | reflexivity].
    + right. right. left. apply negb_false_iff, Z.eqb_eq in H. now subst.
    + right. right. right. left. destruct f; try discriminate. now eexists.
    + right. right. right. right. left.
      apply negb_false_iff, String.eqb_eq in H. now subst.
    + do 6 right. destruct items; [reflexivity | discriminate].
    + do 5 right. left. destruct fields; [reflexivity | discriminate].
  - intros [H | [H | [H | [[sign H] | [H | [H | H]]]]]]; subst; reflexivity.
Qed.

Lemma show_prompt_falsy (doc : json) :
  truthy doc = false -> show_prompt doc = ([no_prompt], Done tt).
Proof. intros H. unfold show_prompt. rewrite H. reflexivity. Qed.

(** The prompt of a group whose first document is an object. *)
Lemma show_prompt_object (fields : list (string * json)) :
  show_prompt (JObj fields) =
  match dict_get "input_text" fields with
  | Some prompt => ([StMarkdown [Lit "**Prompt:** "; Val prompt]], Done tt)
  | None => ([no_prompt], Done tt)
  end.
Proof.
  unfold show_prompt. destruct fields as [| [k v] rest]; [reflexivity |].
  cbv beta iota delta [truthy py_contains py_getitem lift bind ret].
  destruct (dict_get "input_text" ((k, v) :: rest)); reflexivity.
Qed.

Lemma show_attempt_begins (w : world) (folder : string) (g : groups)
    (attempt first : string) (rest : list string) :
  lookup attempt g = Some (first :: rest) ->
  show_attempt w folder g attempt =
  emit (StSubheader (attempt_title attempt)) ;;;
  first_json <- load_json w first ;;
  show_prompt first_json ;;;
  for_each (first :: rest) (show_sample w folder) ;;;
  emit (StMarkdown [Lit "###"]).
Proof.
  intros H. unfold show_attempt. apply bind_ext. intros _.
  rewrite H, !bind_ret_l. reflexivity.
Qed.

(** C10. A file that decodes to a falsy document (null, false, zero, the
    empty string, object or array) loads without any error, yet
    [display_sample] shows the load-failure error and no JSON tree for it,
    and a group that starts with it gets the prompt placeholder; for the
    document [null] the loader's return value is the one a failed load
    gives. *)
Theorem falsy_document_reads_as_failure
    (w : world) (folder json_path wav_path data : string) (doc : json) :
  w json_path = File true data ->
  json_loads data = Done doc ->
  truthy doc = false ->
  (doc = JNull \/ doc = JBool false \/ doc = JInt 0 \/
   (exists sign, doc = JFloat (S754_zero sign)) \/
   doc = JStr "" \/ doc = JObj [] \/ doc = JArr []) /\
  load_json w json_path = ([], Done doc) /\
  (doc = JNull ->
   forall other, cannot_load w other ->
     result (load_json w json_path) = result (load_json w other)) /\
  calls (display_sample w json_path wav_path) =
    could_not_load :: calls (audio_part w wav_path) /\
  existsb is_json_tree (calls (display_sample w json_path wav_path)) = false /\
  (forall g attempt rest,
     lookup attempt g = Some (json_path :: rest) ->
     exists tail,
       calls (show_attempt w folder g attempt) =
       StSubheader (attempt_title attempt) :: no_prompt :: tail).
Proof.
  intros Hw Hd Hfalsy.
  assert (Hr : read_json w json_path = Done doc)
    by (apply read_json_done_iff; exists data; split; assumption).
  assert (Hl : load_json w json_path = ([], Done doc))
    by (apply load_json_done; exact Hr).
  assert (Hcalls : calls (display_sample w json_path wav_path) =
                   could_not_load :: calls (audio_part w wav_path)).
  { rewrite display_sample_parts. unfold metadata_part.
    rewrite Hr, Hfalsy. reflexivity. }
  split; [apply falsy_documents; exact Hfalsy |].
  split; [exact Hl | split; [| split; [exact Hcalls | split]]].
  - intros Hnull other Hother. subst doc.
    apply read_json_raised_iff in Hother. destruct Hother as [e He].
    rewrite Hl, (load_json_raised _ _ _ He). reflexivity.
  - rewrite Hcalls. unfold audio_part.
    destruct (path_exists w wav_path);
      [destruct (read_file w wav_path) |]; reflexivity.
  - intros g attempt rest Hg.
    rewrite (show_attempt_begins _ _ _ _ _ _ Hg), Hl.
    rewrite calls_bind. simpl result. cbv beta iota.
    rewrite calls_bind. simpl result. cbv beta iota.
    rewrite (show_prompt_falsy _ Hfalsy).
    rewrite calls_bind. simpl.
    eexists. reflexivity.
Qed.

(* ================================================================ *)
(** ** Grouping *)
(* ================================================================ *)

Lemma lookup_setdefault_append (g : groups) (attempt filepath k : string) :
  lookup k (setdefault_append attempt filepath g) =
  if String.eqb attempt k
  then Some (match lookup attempt g with
             | Some paths => paths ++ [filepath]
             | None => [filepath]
             end)
  else lookup k g.
Proof.
  induction g as [| [k0 paths] rest IH]; simpl.
  - rewrite String.eqb_sym. destruct (String.eqb k attempt); reflexivity.
  - destruct (String.eqb k0 attempt) eqn:E0; simpl.
    + apply String.eqb_eq in E0. subst k0.
      destruct (String.eqb attempt k); reflexivity.
    + rewrite IH. destruct (String.eqb attempt k) eqn:E1.
      * apply String.eqb_eq in E1. subst k. rewrite E0. reflexivity.
      * reflexivity.
Qed.

Lemma in_keys_setdefault_append (g : groups) (attempt filepath k : string) :
  In k (keys (setdefault_append attempt filepath g)) <->
  k = attempt \/ In k (keys g).
Proof.
  induction g as [| [k0 paths] rest IH]; simpl.
  - split.
    + intros [H | []]. left. symmetry. exact H.
    + intros [H | []]. left. symmetry. exact H.
  - destruct (String.eqb k0 attempt) eqn:E0; simpl.
    + apply String.eqb_eq in E0. subst k0. split.
      * intros H. right. exact H.
      * intros [H | H]; [left; symmetry; exact H | exact H].
    + unfold keys in IH. rewrite IH. split.
      * intros [H | [H | H]];
          [right; left; exact H | left; exact H | right; right; exact H].
      * intros [H | [H | H]];
          [right; left; exact H | left; exact H | right; right; exact H].
Qed.

Lemma nodup_keys_setdefault_append (g : groups) (attempt filepath : string) :
  NoDup (keys g) -> NoDup (keys (setdefault_append attempt filepath g)).
Proof.
  induction g as [| [k0 paths] rest IH]; simpl; intros H.
  - constructor; [intros [] | constructor].
  - inversion H as [| x l Hnot Hrest]; subst.
    destruct (String.eqb k0 attempt) eqn:E0; simpl.
    + constructor; assumption.
    + constructor; [| apply IH; exact Hrest].
      intros Hin. apply in_keys_setdefault_append in Hin.
      destruct Hin as [Heq | Hin]; [| exact (Hnot Hin)].
      subst k0. rewrite String.eqb_refl in E0. discriminate.
Qed.

Lemma lookup_some_in (g : groups) (k : string) (paths : list string) :
  lookup k g = Some paths -> In (k, paths) g.
Proof.
  induction g as [| [k0 ps] rest IH]; simpl; [discriminate |].
  destruct (String.eqb k0 k) eqn:E.
  - apply String.eqb_eq in E. subst k0. intros H. inversion H. left. reflexivity.
  - intros H. right. apply IH. exact H.
Qed.

Lemma in_lookup_some (g : groups) (k : string) (paths : list string) :
  NoDup (keys g) -> In (k, paths) g -> lookup k g = Some paths.
Proof.
  induction g as [| [k0 ps] rest IH]; simpl; intros Hnd Hin; [contradiction |].
  inversion Hnd as [| x l Hnot Hrest]; subst.
  destruct Hin as [Heq | Hin].
  - inversion Heq; subst. rewrite String.eqb_refl. reflexivity.
  - destruct (String.eqb k0 k) eqn:E.
    + apply String.eqb_eq in E. subst k0. exfalso. apply Hnot.
      change k with (fst (k, paths)). apply in_map. exact Hin.
    + apply IH; assumption.
Qed.

(** How a group grows along the loop of [group_by_attempt]. *)
Lemma lookup_fold_group_step (pattern : matcher) (json_files : list string)
    (g : groups) (k : string) :
  lookup k (fold_left (group_step pattern) json_files g) =
  match lookup k g, filter (in_attempt pattern k) json_files with
  | None, [] => None
  | None, paths => Some paths
  | Some old, paths => Some (old ++ paths)
  end.
Proof.
  revert g. induction json_files as [| f rest IH]; intros g; simpl.
  - destruct (lookup k g); [rewrite app_nil_r |]; reflexivity.
  - rewrite IH. unfold group_step, in_attempt.
    destruct (pattern (basename f)) as [[voice attempt] |].
    + rewrite lookup_setdefault_append.
      destruct (String.eqb attempt k) eqn:E.
      * apply String.eqb_eq in E. subst attempt.
        destruct (lookup k g) as [old |].
        -- rewrite <- app_assoc. reflexivity.
        -- reflexivity.
      * reflexivity.
    + reflexivity.
Qed.

Lemma nodup_keys_fold_group_step (pattern : matcher) (json_files : list string)
    (g : groups) :
  NoDup (keys g) -> NoDup (keys (fold_left (group_step pattern) json_files g)).
Proof.
  revert g. induction json_files as [| f rest IH]; intros g H; simpl.
  - exact H.
  - apply IH. unfold group_step.
    destruct (pattern (basename f)) as [[voice attempt] |].
    + apply nodup_keys_setdefault_append. exact H.
    + exact H.
Qed.

Lemma lookup_group_by_attempt (json_files : list string) (pattern : matcher)
    (attempt : string) :
  lookup attempt (group_by_attempt json_files pattern) =
  match filter (in_attempt pattern attempt) json_files with
  | [] => None
  | paths => Some paths
  end.
Proof. unfold group_by_attempt. rewrite lookup_fold_group_step. reflexivity. Qed.

Lemma nodup_keys_group_by_attempt (json_files : list string) (pattern : matcher) :
  NoDup (keys (group_by_attempt json_files pattern)).
Proof. apply nodup_keys_fold_group_step. constructor. Qed.

Lemma group_step_ext (p1 p2 : matcher) (json_files : list string) (g : groups) :
  (forall f, In f json_files -> p1 (basename f) = p2 (basename f)) ->
  fold_left (group_step p1) json_files g = fold_left (group_step p2) json_files g.
Proof.
  revert g. induction json_files as [| f rest IH]; intros g H; simpl.
  - reflexivity.
  - unfold group_step at 2 4. rewrite (H f (or_introl eq_refl)).
    apply IH. intros f' Hf'. apply H. right. exact Hf'.
Qed.

Lemma in_group_by_attempt (json_files : list string) (pattern : matcher)
    (attempt : string) (paths : list string) :
  In (attempt, paths) (group_by_attempt json_files pattern) <->
  paths <> [] /\ paths = filter (in_attempt pattern attempt) json_files.
Proof.
  split.
  - intros H.
    apply (in_lookup_some _ _ _ (nodup_keys_group_by_attempt _ _)) in H.
    rewrite lookup_group_by_attempt in H.
    destruct (filter (in_attempt pattern attempt) json_files) eqn:E;
      [discriminate |]. inversion H. split; [discriminate | reflexivity].
  - intros [Hne Heq]. apply lookup_some_in.
    rewrite lookup_group_by_attempt, <- Heq.
    destruct paths; [contradiction | reflexivity].
Qed.

Lemma group_member_matches (json_files : list string) (pattern : matcher)
    (filepath attempt : string) (paths : list string) :
  In (attempt, paths) (group_by_attempt json_files pattern) ->
  In filepath paths ->
  In filepath json_files /\
  exists voice, pattern (basename filepath) = Some (voice, attempt).
Proof.
  intros Hg Hf. apply in_group_by_attempt in Hg.
  destruct Hg as [_ Heq]. subst paths. apply filter_In in Hf.
  destruct Hf as [Hin Hf]. split; [exact Hin |]. unfold in_attempt in Hf.
  destruct (pattern (basename filepath)) as [[voice a] |]; [| discriminate].
  apply String.eqb_eq in Hf. subst a. exists voice. reflexivity.
Qed.

(** C1. In the mapping [group_by_attempt] returns, the group of an attempt
    is the list of the input paths whose base name matches the pattern with
    that attempt as second group, in their input order, and an attempt has
    a group only when some path matches with it; so a matching path is in
    the group of its attempt and in no other, a path whose base name does
    not match is in no group, and the mapping depends on the pattern only
    through what it answers on the base names of the paths. *)
Theorem group_by_attempt_spec (json_files : list string) (pattern : matcher) :
  let g := group_by_attempt json_files pattern in
  NoDup (keys g) /\
  (forall attempt,
     lookup attempt g =
     match filter (in_attempt pattern attempt) json_files with
     | [] => None
     | paths => Some paths
     end) /\
  (forall attempt paths,
     In (attempt, paths) g <->
     paths <> [] /\ paths = filter (in_attempt pattern attempt) json_files) /\
  (forall filepath voice attempt,
     In filepath json_files ->
     pattern (basename filepath) = Some (voice, attempt) ->
     exists paths, In (attempt, paths) g /\ In filepath paths) /\
  (forall filepath attempt paths,
     In (attempt, paths) g -> In filepath paths ->
     exists voice, pattern (basename filepath) = Some (voice, attempt)) /\
  (forall other : matcher,
     (forall f, In f json_files -> other (basename f) = pattern (basename f)) ->
     group_by_attempt json_files other = g).
Proof.
  intros g.
  split; [apply nodup_keys_group_by_attempt |].
  split; [apply lookup_group_by_attempt |].
  split; [apply in_group_by_attempt |].
  split; [| split].
  - intros filepath voice attempt Hf Hm.
    assert (Hfil : In filepath (filter (in_attempt pattern attempt) json_files)).
    { apply filter_In. split; [exact Hf |].
      unfold in_attempt. rewrite Hm. apply String.eqb_refl. }
    exists (filter (in_attempt pattern attempt) json_files).
    split; [| exact Hfil]. apply in_group_by_attempt. split; [| reflexivity].
    intros E. rewrite E in Hfil. exact Hfil.
  - intros filepath attempt paths Hg Hf.
    apply (group_member_matches _ _ _ _ _ Hg Hf).
  - intros other H. unfold g, group_by_attempt. apply group_step_ext. exact H.
Qed.

(* ================================================================ *)
(** ** [int] on digit strings and the order of the attempts *)
(* ================================================================ *)

Lemma digit_is_plain (c : ascii) :
  is_digit c = true ->
  is_space c = false /\ Ascii.eqb c "-" = false /\
  Ascii.eqb c "+" = false /\ Ascii.eqb c "_" = false.
Proof.
  destruct c as [b0 b1 b2 b3 b4 b5 b6 b7].
  destruct b0, b1, b2, b3, b4, b5, b6, b7; intros H;
    solve [discriminate H | repeat split; reflexivity].
Qed.

Lemma rstrip_all_digits (s : string) : all_digits s = true -> rstrip s = s.
Proof.
  induction s as [| c s IH]; simpl; intros H; [reflexivity |].
  apply andb_true_iff in H. destruct H as [Hc Hs].
  rewrite (IH Hs). destruct (digit_is_plain c Hc) as [Hsp _].
  rewrite Hsp, andb_false_r. reflexivity.
Qed.

Lemma int_digits_all_digits (s : string) (acc : Z) (after_digit : bool) :
  all_digits s = true -> s <> EmptyString \/ after_digit = true ->
  int_digits acc after_digit s = Some (decimal acc s).
Proof.
  revert acc after_digit.
  induction s as [| c s IH]; simpl; intros acc after_digit H Hne.
  - destruct Hne as [Hne | Hne]; [contradiction | rewrite Hne; reflexivity].
  - apply andb_true_iff in H. destruct H as [Hc Hs]. rewrite Hc.
    apply IH; [exact Hs | right; reflexivity].
Qed.

(** On a decimal digit string [int] returns the number it denotes. *)
Lemma py_int_digit_string (s : string) :
  digit_string s = true -> py_int s = Done (numeric_value s).
Proof.
  unfold digit_string. intros H. apply andb_true_iff in H.
  destruct H as [Hne Hd]. destruct s as [| c s]; [discriminate |].
  assert (Hc : is_digit c = true)
    by (simpl in Hd; apply andb_true_iff in Hd; exact (proj1 Hd)).
  destruct (digit_is_plain c Hc) as [Hsp [Hminus [Hplus _]]].
  unfold py_int.
  assert (Hl : lstrip (String c s) = String c s) by (simpl; rewrite Hsp; reflexivity).
  rewrite Hl, (rstrip_all_digits _ Hd), Hminus, Hplus.
  rewrite (int_digits_all_digits _ 0%Z false Hd) by (left; discriminate).
  reflexivity.
Qed.

Lemma decorate_digit_strings (ks : list string) :
  Forall (fun k => digit_string k = true) ks ->
  decorate ks = Done (map tag ks).
Proof.
  induction 1 as [| k ks Hk _ IH]; simpl; [reflexivity |].
  rewrite (py_int_digit_string _ Hk), IH. reflexivity.
Qed.

Section Sorting.

Context {A : Type} (le : A -> A -> bool).

Lemma insert_sorted_perm (x : A) (l : list A) :
  Permutation (x :: l) (insert_sorted le x l).
Proof.
  induction l as [| y rest IH]; simpl; [apply Permutation_refl |].
  destruct (le x y).
  - apply Permutation_refl.
  - eapply perm_trans; [apply perm_swap | apply perm_skip; exact IH].
Qed.

Lemma sorted_perm (l : list A) : Permutation l (sorted le l).
Proof.
  induction l as [| x rest IH]; simpl; [apply perm_nil |].
  eapply perm_trans; [apply perm_skip; exact IH | apply insert_sorted_perm].
Qed.

Hypothesis le_total : forall a b, le a b = true \/ le b a = true.
Hypothesis le_trans : forall a b c, le a b = true -> le b c = true -> le a c = true.

Lemma insert_sorted_sorted (x : A) (l : list A) :
  StronglySorted (fun a b => le a b = true) l ->
  StronglySorted (fun a b => le a b = true) (insert_sorted le x l).
Proof.
  induction 1 as [| y rest Hrest IH Hy]; simpl.
  - constructor; constructor.
  - destruct (le x y) eqn:E.
    + constructor; [constructor; assumption |].
      constructor; [exact E |].
      eapply Forall_impl; [| exact Hy]. intros z Hz. eapply le_trans; eassumption.
    + constructor; [exact IH |].
      eapply Permutation_Forall; [apply insert_sorted_perm |].
      constructor; [| exact Hy].
      destruct (le_total x y) as [H | H]; [congruence | exact H].
Qed.

Lemma sorted_sorted (l : list A) :
  StronglySorted (fun a b => le a b = true) (sorted le l).
Proof.
  induction l as [| x rest IH]; simpl; [constructor |].
  apply insert_sorted_sorted. exact IH.
Qed.

End Sorting.

Lemma sorted_tags_numeric (l : list (Z * string)) :
  StronglySorted (fun a b => by_key a b = true) l ->
  Forall (fun p => fst p = numeric_value (snd p)) l ->
  StronglySorted (fun a b => (numeric_value a <= numeric_value b)%Z) (map snd l).
Proof.
  induction 1 as [| p rest Hrest IH Hp]; simpl; intros Hf; [constructor |].
  inversion Hf as [| p' l' Hpf Hrf]; subst.
  constructor; [apply IH; exact Hrf |].
  apply Forall_map. rewrite Forall_forall in *. intros q Hq.
  specialize (Hp q Hq). specialize (Hrf q Hq). unfold by_key in Hp.
  apply Z.leb_le in Hp. rewrite <- Hpf, <- Hrf. exact Hp.
Qed.

(** The visiting order of a grouping whose keys are digit strings. *)
Lemma attempt_order_digit_keys (g : groups) :
  Forall (fun k => digit_string k = true) (keys g) ->
  exists order,
    attempt_order g = Done order /\
    Permutation order (keys g) /\
    StronglySorted (fun a b => (numeric_value a <= numeric_value b)%Z) order.
Proof.
  intros H. unfold attempt_order. rewrite (decorate_digit_strings _ H).
  fold by_key.
  exists (map snd (sorted by_key (map tag (keys g)))).
  split; [reflexivity | split].
  - apply Permutation_sym.
    assert (E : keys g = map snd (map tag (keys g))).
    { rewrite map_map. simpl. symmetry. apply map_id. }
    rewrite E at 1. apply Permutation_map, sorted_perm.
  - apply sorted_tags_numeric.
    + apply sorted_sorted; unfold by_key; intros.
      * destruct (Z.le_ge_cases (fst a) (fst b)) as [L | L];
          [left | right]; apply Z.leb_le; lia.
      * apply Z.leb_le. apply Z.leb_le in H0, H1. lia.
    + eapply Permutation_Forall; [apply sorted_perm |].
      apply Forall_map. apply Forall_forall. intros k _. reflexivity.
Qed.

(* ================================================================ *)
(** ** Subsections of the rendered page *)
(* ================================================================ *)










Lemma show_groups_ordered (w : world) (folder : string) (g : groups)
    (order : list string) :
  attempt_order g = Done order ->
  show_groups w folder g = for_each order (show_attempt w folder g).
Proof.
  intros H. unfold show_groups. rewrite H. unfold lift.
  rewrite bind_done. simpl. symmetry. apply ui_eta.
Qed.

Lemma display_grouped_samples_calls (w : world) (folder title : string)
    (pattern : matcher) :
  let json_files := sorted String.leb (glob_json w folder) in
  display_grouped_samples w folder title pattern =
  match json_files with
  | [] => ([StHeader title;
            StInfo ("No JSON files found in the '" ++ folder ++ "' folder.")],
           Done tt)
  | _ => (StHeader title ::
            calls (show_groups w folder (group_by_attempt json_files pattern)),
          result (show_groups w folder (group_by_attempt json_files pattern)))
  end.
Proof.
  intros json_files. unfold display_grouped_samples. fold json_files.
  unfold emit at 1. rewrite bind_done.
  destruct json_files; reflexivity.
Qed.


(* ================================================================ *)
(** ** The voice label *)
(* ================================================================ *)

Lemma strip_prefix_iff (p s t : string) :
  strip_prefix p s = Some t <-> s = (p ++ t)%string.
Proof.
  revert s. induction p as [| a p IH]; intros s; simpl.
  - split; [intros H; inversion H; reflexivity | intros H; subst; reflexivity].
  - destruct s as [| b s].
    + split; discriminate.
    + destruct (Ascii.eqb a b) eqn:E.
      * apply Ascii.eqb_eq in E. subst b. rewrite IH.
        split; [intros H; subst; reflexivity | intros H; inversion H; reflexivity].
      * apply Ascii.eqb_neq in E.
        split; [discriminate | intros H; inversion H; congruence].
Qed.

Lemma starts_with_iff (p s : string) :
  starts_with p s = true <-> exists t, s = (p ++ t)%string.
Proof.
  unfold starts_with. destruct (strip_prefix p s) as [t |] eqn:E.
  - split; [intros _; exists t; apply strip_prefix_iff; exact E | reflexivity].
  - split; [discriminate |]. intros [t H].
    apply strip_prefix_iff in H. congruence.
Qed.

Lemma before_marker_eq (s : string) :
  before_marker s =
  if starts_with marker s then Some EmptyString
  else match s with
       | EmptyString => None
       | String c s' =>
           match before_marker s' with
           | Some pre => Some (String c pre)
           | None => None
           end
       end.
Proof. destruct s; reflexivity. Qed.

Lemma voice_match_eq (s : string) :
  voice_match s =
  if starts_with marker s then Some EmptyString
  else match s with
       | EmptyString => None
       | String c s' =>
           if Ascii.eqb c newline then None
           else match voice_match s' with
                | Some voice => Some (String c voice)
                | None => None
                end
       end.
Proof. destruct s; reflexivity. Qed.

Lemma occurs_after_empty (s : string) :
  occurs_after EmptyString s <-> starts_with marker s = true.
Proof. unfold occurs_after. rewrite starts_with_iff. reflexivity. Qed.

Lemma occurs_after_cons (c : ascii) (pre s : string) :
  occurs_after (String c pre) (String c s) <-> occurs_after pre s.
Proof.
  unfold occurs_after. split; intros [post H]; exists post.
  - simpl in H. inversion H. reflexivity.
  - simpl. rewrite H. reflexivity.
Qed.

Lemma occurs_after_head (c c' : ascii) (pre s : string) :
  occurs_after (String c' pre) (String c s) -> c' = c.
Proof. intros [post H]. simpl in H. inversion H. reflexivity. Qed.

(** [before_marker] finds the first occurrence of the marker. *)
Lemma before_marker_first (s pre : string) :
  before_marker s = Some pre <-> first_occurrence pre s.
Proof.
  split.
  - revert pre. induction s as [| c s IH]; intros pre; rewrite before_marker_eq;
      destruct (starts_with marker _) eqn:E.
    + intros H. inversion H. split; [apply occurs_after_empty; exact E |].
      intros; simpl; lia.
    + discriminate.
    + intros H. inversion H. split; [apply occurs_after_empty; exact E |].
      intros; simpl; lia.
    + destruct (before_marker s) as [pre0 |]; [| discriminate].
      intros H. inversion H. subst pre. clear H.
      destruct (IH pre0 eq_refl) as [Hocc Hmin]. split.
      * apply occurs_after_cons. exact Hocc.
      * intros pre' Hpre'. destruct pre' as [| c' pre0'].
        -- apply occurs_after_empty in Hpre'. congruence.
        -- assert (c' = c) by (eapply occurs_after_head; exact Hpre'). subst c'.
           apply occurs_after_cons in Hpre'. specialize (Hmin _ Hpre').
           simpl. lia.
  - revert s. induction pre as [| c pre IH]; intros s [Hocc Hmin];
      rewrite before_marker_eq.
    + apply occurs_after_empty in Hocc. rewrite Hocc. reflexivity.
    + destruct (starts_with marker s) eqn:E.
      * apply occurs_after_empty in E. specialize (Hmin _ E). simpl in Hmin. lia.
      * destruct Hocc as [post Hs].
        change (s = String c (pre ++ marker ++ post)%string) in Hs. subst s.
        assert (Hrest : before_marker (pre ++ marker ++ post)%string = Some pre).
        { apply IH. split; [exists post; reflexivity |].
          intros pre' Hpre'. apply (occurs_after_cons c) in Hpre'.
          specialize (Hmin _ Hpre'). simpl in Hmin. lia. }
        cbv beta iota. rewrite Hrest. reflexivity.
Qed.


Lemma voice_match_before_marker (s : string) :
  voice_match s =
  match before_marker s with
  | Some pre => if has_char newline pre then None else Some pre
  | None => None
  end.
Proof.
  induction s as [| c s IH]; rewrite voice_match_eq, before_marker_eq;
    destruct (starts_with marker _); try reflexivity.
  rewrite IH. destruct (before_marker s) as [pre |].
  - simpl has_char. destruct (Ascii.eqb c newline); [reflexivity |].
    simpl. destruct (has_char newline pre); reflexivity.
  - destruct (Ascii.eqb c newline); reflexivity.
Qed.



(* ================================================================ *)
(** ** Files whose names do not follow the pattern *)
(* ================================================================ *)




(* ================================================================ *)
(** ** When the section renders to its end *)
(* ================================================================ *)

Lemma attempt_pattern_eq (s : string) :
  attempt_pattern s =
  match attempt_tail s with
  | Some digits => Some (EmptyString, digits)
  | None =>
      match s with
      | EmptyString => None
      | String c s' =>
          if Ascii.eqb c newline then None
          else match attempt_pattern s' with
               | Some (voice, digits) => Some (String c voice, digits)
               | None => None
               end
      end
  end.
Proof. destruct s; reflexivity. Qed.

Lemma span_digits_all_digits (s : string) : all_digits (fst (span_digits s)) = true.
Proof.
  induction s as [| c s IH]; simpl; [reflexivity |].
  destruct (is_digit c) eqn:E; [| reflexivity].
  destruct (span_digits s) as [ds rest]. simpl in *. rewrite E, IH. reflexivity.
Qed.

Lemma attempt_tail_digits (s digits : string) :
  attempt_tail s = Some digits -> digit_string digits = true.
Proof.
  unfold attempt_tail. destruct (strip_prefix marker s) as [after |]; [| discriminate].
  pose proof (span_digits_all_digits after) as Hall.
  destruct (span_digits after) as [ds rest]. simpl in Hall.
  destruct (String.eqb ds "") eqn:E; [discriminate |].
  destruct (_ || _); [| discriminate].
  intros H. inversion H. subst digits. unfold digit_string. rewrite E, Hall. reflexivity.
Qed.

(** Group 2 of the pattern of the section is a decimal digit string. *)
Lemma attempt_pattern_digits (s voice digits : string) :
  attempt_pattern s = Some (voice, digits) -> digit_string digits = true.
Proof.
  revert voice. induction s as [| c s IH]; intros voice; rewrite attempt_pattern_eq.
  - destruct (attempt_tail EmptyString) as [d |] eqn:E; [| discriminate].
    intros H. inversion H. subst d. eapply attempt_tail_digits. exact E.
  - destruct (attempt_tail (String c s)) as [d |] eqn:E.
    + intros H. inversion H. subst d. eapply attempt_tail_digits. exact E.
    + destruct (Ascii.eqb c newline); [discriminate |].
      destruct (attempt_pattern s) as [[v d] |]; [| discriminate].
      intros H. inversion H. subst d. eapply IH. reflexivity.
Qed.

Lemma result_for_each {A} (xs : list A) (body : A -> ui unit) :
  (forall x, In x xs -> result (body x) = Done tt) ->
  result (for_each xs body) = Done tt.
Proof.
  induction xs as [| x rest IH]; intros H; simpl; [reflexivity |].
  rewrite result_bind, (H x (or_introl eq_refl)).
  apply IH. intros y Hy. apply H. right. exact Hy.
Qed.

Lemma result_load_json (w : world) (filepath : string) :
  exists doc, result (load_json w filepath) = Done doc /\
              (read_json w filepath = Done doc \/ doc = JNull).
Proof.
  destruct (read_json w filepath) as [doc | e] eqn:Hr.
  - exists doc. rewrite (load_json_done _ _ _ Hr). split; [reflexivity | left; reflexivity].
  - exists JNull. rewrite (load_json_raised _ _ _ Hr). split; [reflexivity | right; reflexivity].
Qed.

Lemma result_show_prompt (doc : json) :
  prompt_safe doc -> result (show_prompt doc) = Done tt.
Proof.
  intros [H | [fields H]].
  - rewrite (show_prompt_falsy _ H). reflexivity.
  - subst doc. rewrite show_prompt_object.
    destruct (dict_get "input_text" fields); reflexivity.
Qed.

Lemma result_audio_part (w : world) (wav_path : string) :
  audio_safe w wav_path -> result (audio_part w wav_path) = Done tt.
Proof.
  unfold audio_part, path_exists, read_file.
  intros [H | [data H]]; rewrite H; reflexivity.
Qed.

Lemma result_show_sample (w : world) (folder json_file : string) :
  audio_safe w (wav_of folder json_file) ->
  result (show_sample w folder json_file) = Done tt.
Proof.
  intros H. unfold show_sample. fold (wav_of folder json_file).
  rewrite result_bind. simpl result. cbv beta iota.
  rewrite result_bind, display_sample_parts. simpl result.
  rewrite (result_audio_part _ _ H). reflexivity.
Qed.

(** X3. The section renders to its end when every JSON file of the folder
    decodes to an object or a falsy value, or does not load, and every
    derived audio path is absent or a readable file. *)
Lemma samples_render_to_the_end (w : world) (folder title : string) :
  (forall f doc, In f (glob_json w folder) ->
                 read_json w f = Done doc -> prompt_safe doc) ->
  (forall f, In f (glob_json w folder) -> audio_safe w (wav_of folder f)) ->
  result (display_grouped_samples w folder title attempt_pattern) = Done tt.
Proof.
  intros Hdocs Haudio.
  rewrite display_grouped_samples_calls. cbv zeta.
  pose proof (sorted_perm String.leb (glob_json w folder)) as Hperm.
  destruct (sorted String.leb (glob_json w folder)) as [| f0 files] eqn:Hfiles;
    [reflexivity |].
  rewrite <- Hfiles in *. clear Hfiles f0 files.
  set (json_files := sorted String.leb (glob_json w folder)) in *.
  set (g := group_by_attempt json_files attempt_pattern).
  simpl result.
  pose proof (nodup_keys_group_by_attempt json_files attempt_pattern) as Hnd.
  pose proof (in_group_by_attempt json_files attempt_pattern) as Hin.
  pose proof (group_member_matches json_files attempt_pattern) as Hmatch.
  fold g in Hnd, Hin, Hmatch.
  assert (Hkeys : Forall (fun k => digit_string k = true) (keys g)).
  { apply Forall_forall. intros k Hk. unfold keys in Hk.
    apply in_map_iff in Hk. destruct Hk as [[k' paths] [Hk' Hg]]. simpl in Hk'.
    subst k'. destruct (proj1 (Hin k paths) Hg) as [Hne Hpaths].
    destruct paths as [| f rest]; [contradiction |].
    destruct (Hmatch f k (f :: rest) Hg (or_introl eq_refl)) as [_ [voice Hv]].
    eapply attempt_pattern_digits. exact Hv. }
  destruct (attempt_order_digit_keys g Hkeys) as [order [Horder [Hord _]]].
  rewrite (show_groups_ordered _ _ _ _ Horder).
  apply result_for_each. intros attempt Hattempt.
  assert (Hk : In attempt (keys g)) by (eapply Permutation_in; eassumption).
  unfold keys in Hk. apply in_map_iff in Hk.
  destruct Hk as [[k paths] [Hk' Hg]]. simpl in Hk'. subst k.
  destruct (proj1 (Hin attempt paths) Hg) as [Hne Hpaths].
  assert (Hall : forall f, In f paths -> In f (glob_json w folder)).
  { intros f Hf. rewrite Hpaths in Hf. apply filter_In in Hf.
    eapply Permutation_in; [apply Permutation_sym; exact Hperm | apply Hf]. }
  destruct paths as [| first rest]; [contradiction |].
  rewrite (show_attempt_begins _ _ _ _ _ _ (in_lookup_some _ _ _ Hnd Hg)).
  rewrite result_bind. simpl result. cbv beta iota.
  destruct (result_load_json w first) as [doc [Hdoc Hcase]].
  rewrite result_bind, Hdoc. cbv beta iota.
  assert (Hsafe : prompt_safe doc).
  { destruct Hcase as [Hr | Hnull].
    - apply (Hdocs first doc); [apply Hall; left; reflexivity | exact Hr].
    - subst doc. left. reflexivity. }
  rewrite result_bind, (result_show_prompt _ Hsafe). cbv beta iota.
  rewrite result_bind.
  change (show_sample w folder first ;;; for_each rest (show_sample w folder))
    with (for_each (first :: rest) (show_sample w folder)).
  rewrite result_for_each; [reflexivity |].
  intros f Hf. apply result_show_sample. apply Haudio, Hall. exact Hf.
Qed.

(* ================================================================ *)
(** ** Further properties of the presenter and of the section *)
(* ================================================================ *)

(** X1. The page of [display_sample] is what the JSON path alone decides
    (one or two calls: the tree, or the errors) followed by what the audio
    path alone decides, and its result is that of the audio part: the state
    of the JSON file never stops or changes the audio display, and the
    audio never changes the metadata shown before it. *)
Theorem presenter_concerns_are_independent (w w' : world)
    (json_path wav_path : string) :
  display_sample w json_path wav_path =
    (metadata_part w json_path ++ calls (audio_part w wav_path),
     result (audio_part w wav_path)) /\
  (w' json_path = w json_path ->
   metadata_part w' json_path = metadata_part w json_path) /\
  (w' wav_path = w wav_path -> audio_part w' wav_path = audio_part w wav_path) /\
  (1 <= length (metadata_part w json_path) <= 2)%nat.
Proof.
  split; [apply display_sample_parts | split; [| split]].
  - intros H. unfold metadata_part, read_json, read_file. rewrite H. reflexivity.
  - intros H. unfold audio_part, path_exists, read_file. rewrite H. reflexivity.
  - unfold metadata_part. destruct (read_json w json_path); simpl; lia.
Qed.









Lemma dict_get_contains (key : string) (fields : list (string * json)) :
  py_contains key (JObj fields) = Done true ->
  exists v, py_getitem (JObj fields) key = Done v.
Proof.
  simpl. destruct (dict_get key fields) as [v |]; [| discriminate].
  intros _. exists v. reflexivity.
Qed.





(* ================================================================ *)
(** ** The pattern of the section and the names it matches *)
(* ================================================================ *)


Lemma has_char_append (c : ascii) (a b : string) :
  has_char c (a ++ b) = has_char c a || has_char c b.
Proof.
  induction a as [| x a IH]; simpl; [reflexivity |].
  rewrite IH, orb_assoc. reflexivity.
Qed.


Lemma span_digits_split (s : string) :
  s = (fst (span_digits s) ++ snd (span_digits s))%string.
Proof.
  induction s as [| c s IH]; simpl; [reflexivity |].
  destruct (is_digit c); [| reflexivity].
  destruct (span_digits s) as [ds rest]. simpl in *. rewrite <- IH. reflexivity.
Qed.

Lemma span_digits_append (d rest : string) :
  all_digits d = true ->
  match rest with EmptyString => True | String c _ => is_digit c = false end ->
  span_digits (d ++ rest) = (d, rest).
Proof.
  intros Hd Hrest. induction d as [| x d IH]; simpl.
  - destruct rest as [| c rest]; [reflexivity |]. simpl. rewrite Hrest. reflexivity.
  - simpl in Hd. apply andb_true_iff in Hd. destruct Hd as [Hx Hd].
    rewrite Hx, (IH Hd). reflexivity.
Qed.

(** What [attempt_tail] accepts. *)
Lemma attempt_tail_iff (s digits : string) :
  attempt_tail s = Some digits <->
  digit_string digits = true /\
  (s = (marker ++ digits ++ json_end)%string \/
   s = (marker ++ digits ++ json_end_lf)%string).
Proof.
  unfold attempt_tail. split.
  - destruct (strip_prefix marker s) as [after |] eqn:Hs; [| discriminate].
    apply strip_prefix_iff in Hs.
    pose proof (span_digits_split after) as Hsplit.
    pose proof (span_digits_all_digits after) as Hall.
    destruct (span_digits after) as [ds rest]. simpl in Hsplit, Hall.
    destruct (String.eqb ds "") eqn:E; [discriminate |].
    destruct (String.eqb rest ".json") eqn:E1.
    + rewrite orb_true_l. intros H. inversion H. subst ds. apply String.eqb_eq in E1.
      split; [unfold digit_string; rewrite E, Hall; reflexivity |].
      left. rewrite Hs, Hsplit, E1. reflexivity.
    + rewrite orb_false_l.
      destruct (String.eqb rest (".json" ++ String newline "")) eqn:E2;
        [| discriminate].
      intros H. inversion H. subst ds. apply String.eqb_eq in E2.
      split; [unfold digit_string; rewrite E, Hall; reflexivity |].
      right. rewrite Hs, Hsplit, E2. reflexivity.
  - intros [Hd Hs]. unfold digit_string in Hd. apply andb_true_iff in Hd.
    destruct Hd as [Hne Hall]. apply negb_true_iff in Hne.
    destruct Hs as [Hs | Hs]; subst s.
    + rewrite (proj2 (strip_prefix_iff marker _ (digits ++ json_end)) eq_refl).
      rewrite (span_digits_append digits json_end Hall) by reflexivity.
      rewrite Hne. reflexivity.
    + rewrite (proj2 (strip_prefix_iff marker _ (digits ++ json_end_lf)) eq_refl).
      rewrite (span_digits_append digits json_end_lf Hall) by reflexivity.
      rewrite Hne. reflexivity.
Qed.





Lemma attempt_pattern_shape (s voice digits : string) :
  attempt_pattern s = Some (voice, digits) ->
  has_char newline voice = false /\
  digit_string digits = true /\
  (s = (voice ++ marker ++ digits ++ json_end)%string \/
   s = (voice ++ marker ++ digits ++ json_end_lf)%string).
Proof.
  revert voice. induction s as [| c s IH]; intros voice; rewrite attempt_pattern_eq.
  - destruct (attempt_tail EmptyString) as [d |] eqn:E; [| discriminate].
    intros H. inversion H. subst. apply attempt_tail_iff in E.
    destruct E as [Hd Hs]. split; [reflexivity | split; [exact Hd | exact Hs]].
  - destruct (attempt_tail (String c s)) as [d |] eqn:E.
    + intros H. inversion H. subst. apply attempt_tail_iff in E.
      destruct E as [Hd Hs]. split; [reflexivity | split; [exact Hd | exact Hs]].
    + destruct (Ascii.eqb c newline) eqn:Ec; [discriminate |].
      destruct (attempt_pattern s) as [[v d] |]; [| discriminate].
      intros H. inversion H. subst.
      destruct (IH v eq_refl) as [Hv [Hd Hs]].
      split; [simpl; rewrite Ec, Hv; reflexivity | split; [exact Hd |]].
      destruct Hs as [Hs | Hs]; [left | right]; rewrite Hs; reflexivity.
Qed.


Lemma before_marker_within (voice tail : string) :
  exists pre rest,
    before_marker (voice ++ marker ++ tail) = Some pre /\
    voice = (pre ++ rest)%string.
Proof.
  induction voice as [| c voice IH].
  - exists EmptyString, EmptyString. split; [| reflexivity].
    rewrite before_marker_eq.
    assert (E : starts_with marker (EmptyString ++ marker ++ tail) = true)
      by (apply starts_with_iff; exists tail; reflexivity).
    rewrite E. reflexivity.
  - destruct IH as [pre [rest [Hb Hv]]].
    change (String c voice ++ marker ++ tail)%string
      with (String c (voice ++ marker ++ tail)).
    rewrite before_marker_eq.
    destruct (starts_with marker (String c (voice ++ marker ++ tail))).
    + exists EmptyString, (String c voice). split; reflexivity.
    + exists (String c pre), rest. cbv beta iota. rewrite Hb, Hv.
      split; reflexivity.
Qed.

(** X6. For every name the pattern of line 108 matches, the match of line
    70 succeeds: the voice label is the text before the first occurrence of
    the marker, it is a leading part of group 1 of the pattern, and the
    fallback label of line 71 is never used for a file the section
    renders. *)
Theorem matched_name_has_voice (name voice digits : string) :
  attempt_pattern name = Some (voice, digits) ->
  voice_match name = Some (voice_of name) /\
  voice_of name = spec_voice name /\
  first_occurrence (voice_of name) name /\
  exists rest, voice = (voice_of name ++ rest)%string.
Proof.
  intros H. apply attempt_pattern_shape in H. destruct H as [Hnl [_ Hs]].
  assert (Hb : exists pre rest,
             before_marker name = Some pre /\ voice = (pre ++ rest)%string).
  { destruct Hs as [Hs | Hs]; subst name; apply before_marker_within. }
  destruct Hb as [pre [rest [Hb Hv]]].
  assert (Hpre : has_char newline pre = false).
  { rewrite Hv, has_char_append in Hnl. apply orb_false_iff in Hnl.
    exact (proj1 Hnl). }
  unfold voice_of, spec_voice. rewrite voice_match_before_marker, Hb, Hpre.
  split; [reflexivity | split; [reflexivity | split]].
  - apply before_marker_first. exact Hb.
  - exists rest. exact Hv.
Qed.

(* ================================================================ *)
(** ** The audio path of a sample *)
(* ================================================================ *)













(* ================================================================ *)
(** ** The order of the files inside a group *)
(* ================================================================ *)

Lemma leb_cons (x y : ascii) (s t : string) :
  String.leb (String x s) (String y t) =
  match N.compare (N_of_ascii x) (N_of_ascii y) with
  | Lt => true
  | Gt => false
  | Eq => String.leb s t
  end.
Proof.
  unfold String.leb. simpl. unfold Ascii.compare.
  destruct (N.compare (N_of_ascii x) (N_of_ascii y)); reflexivity.
Qed.

Lemma string_leb_trans (a b c : string) :
  String.leb a b = true -> String.leb b c = true -> String.leb a c = true.
Proof.
  revert b c. induction a as [| x a IH]; intros b c.
  - destruct c; reflexivity.
  - destruct b as [| y b]; [discriminate |].
    destruct c as [| z c]; [intros _ H; discriminate H |].
    rewrite !leb_cons.
    destruct (N.compare_spec (N_of_ascii x) (N_of_ascii y)) as [Hxy | Hxy | Hxy];
      destruct (N.compare_spec (N_of_ascii y) (N_of_ascii z)) as [Hyz | Hyz | Hyz];
      destruct (N.compare_spec (N_of_ascii x) (N_of_ascii z)) as [Hxz | Hxz | Hxz];
      intros H1 H2; try reflexivity; try discriminate; try lia.
    apply (IH b c H1 H2).
Qed.

Lemma filter_strongly_sorted {A} (R : A -> A -> Prop) (keep : A -> bool)
    (l : list A) :
  StronglySorted R l -> StronglySorted R (filter keep l).
Proof.
  induction 1 as [| x l Hl IH Hx]; simpl; [constructor |].
  destruct (keep x); [| exact IH].
  constructor; [exact IH |].
  apply Forall_forall. intros y Hy. apply filter_In in Hy.
  rewrite Forall_forall in Hx. apply Hx. apply Hy.
Qed.

Lemma json_files_in_path_order (w : world) (folder : string) :
  StronglySorted (fun a b => String.leb a b = true)
    (sorted String.leb (glob_json w folder)).
Proof.
  apply sorted_sorted.
  - apply String.leb_total.
  - apply string_leb_trans.
Qed.

(** X8. Every group the renderer builds is non-empty, holds only files the
    folder yielded, and lists them in ascending order of their paths: the
    samples of an attempt are presented in the lexicographic order of
    their file paths. *)
Theorem group_files_in_path_order (w : world) (folder : string)
    (pattern : matcher) (attempt : string) (paths : list string) :
  In (attempt, paths)
     (group_by_attempt (sorted String.leb (glob_json w folder)) pattern) ->
  paths <> [] /\
  (forall f, In f paths -> In f (glob_json w folder)) /\
  StronglySorted (fun a b => String.leb a b = true) paths.
Proof.
  intros H. apply in_group_by_attempt in H. destruct H as [Hne Hp].
  split; [exact Hne | split].
  - intros f Hf. rewrite Hp in Hf. apply filter_In in Hf.
    eapply Permutation_in; [apply Permutation_sym, sorted_perm | apply Hf].
  - rewrite Hp. apply filter_strongly_sorted, json_files_in_path_order.
Qed.

(* ================================================================ *)
(** ** The outline of a section rendered to its end *)
(* ================================================================ *)

Lemma outline_app (a b : list st_call) : outline (a ++ b) = outline a ++ outline b.
Proof. apply flat_map_app. Qed.

Lemma bind_done_inv {A B} (m : ui A) (k : A -> ui B) (b : B) :
  result (bind m k) = Done b ->
  exists a, result m = Done a /\ result (k a) = Done b /\
            calls (bind m k) = calls m ++ calls (k a).
Proof.
  rewrite result_bind, calls_bind. destruct (result m) as [a | e];
    [| discriminate]. intros H. exists a. split; [reflexivity | split; [exact H | reflexivity]].
Qed.

Lemma outline_load_json (w : world) (filepath : string) :
  outline (calls (load_json w filepath)) = [].
Proof.
  destruct (read_json w filepath) as [doc | e] eqn:Hr.
  - rewrite (load_json_done _ _ _ Hr). reflexivity.
  - rewrite (load_json_raised _ _ _ Hr). reflexivity.
Qed.

Lemma outline_show_prompt (doc : json) : outline (calls (show_prompt doc)) = [].
Proof.
  unfold show_prompt. rewrite calls_bind, outline_app.
  destruct (truthy doc).
  - destruct (py_contains "input_text" doc) as [[|] | e]; try reflexivity.
    simpl. destruct (py_getitem doc "input_text"); reflexivity.
  - reflexivity.
Qed.

Lemma outline_display_sample (w : world) (json_path wav_path : string) :
  outline (calls (display_sample w json_path wav_path)) = [].
Proof.
  rewrite display_sample_parts. unfold calls at 1. simpl fst.
  rewrite outline_app. unfold metadata_part, audio_part.
  destruct (read_json w json_path) as [doc | e]; [destruct (truthy doc) |];
    (destruct (path_exists w wav_path);
     [destruct (read_file w wav_path) |]); reflexivity.
Qed.

(** A sample contributes its voice label, whatever becomes of it. *)
Lemma outline_show_sample (w : world) (folder json_file : string) :
  outline (calls (show_sample w folder json_file)) =
  [Voice (voice_of (basename json_file))].
Proof.
  unfold show_sample. rewrite calls_bind, outline_app. simpl result.
  cbv beta iota. rewrite calls_bind, outline_app, outline_display_sample.
  destruct (result (display_sample w json_file _)); reflexivity.
Qed.

Lemma outline_for_each {A} (f : A -> list outline_item) (body : A -> ui unit)
    (xs : list A) :
  (forall x, In x xs -> result (body x) = Done tt ->
             outline (calls (body x)) = f x) ->
  result (for_each xs body) = Done tt ->
  outline (calls (for_each xs body)) = flat_map f xs.
Proof.
  induction xs as [| x rest IH]; intros H Hr; simpl; [reflexivity |].
  simpl in Hr. apply bind_done_inv in Hr. destruct Hr as [[] [Hx [Hrest Hcalls]]].
  rewrite Hcalls, outline_app, (H x (or_introl eq_refl) Hx).
  rewrite IH; [reflexivity | | exact Hrest].
  intros y Hy. apply H. right. exact Hy.
Qed.

Lemma outline_show_attempt (w : world) (folder : string) (g : groups)
    (attempt : string) :
  result (show_attempt w folder g attempt) = Done tt ->
  outline (calls (show_attempt w folder g attempt)) = attempt_outline g attempt.
Proof.
  unfold attempt_outline, group_of.
  destruct (lookup attempt g) as [[| first rest] |] eqn:Hl.
  - unfold show_attempt. rewrite Hl. intros H.
    rewrite !result_bind in H. simpl in H. discriminate H.
  - rewrite (show_attempt_begins _ _ _ _ _ _ Hl). intros H.
    apply bind_done_inv in H. destruct H as [[] [_ [H Hc1]]]. rewrite Hc1.
    apply bind_done_inv in H. destruct H as [doc [_ [H Hc2]]]. rewrite Hc2.
    apply bind_done_inv in H. destruct H as [[] [_ [H Hc3]]]. rewrite Hc3.
    apply bind_done_inv in H. destruct H as [[] [Hloop [_ Hc4]]]. rewrite Hc4.
    rewrite !outline_app, outline_load_json, outline_show_prompt.
    rewrite (outline_for_each (fun f => [Voice (voice_of (basename f))])
               (show_sample w folder) (first :: rest));
      [| intros x _ _; apply outline_show_sample | exact Hloop].
    simpl outline. rewrite app_nil_r. simpl app. f_equal.
  - unfold show_attempt. rewrite Hl. intros H.
    rewrite !result_bind in H. simpl in H. discriminate H.
Qed.

(** X9. When a section renders to its end, its outline is exactly: for each
    attempt, in the order of the sort of line 56, the subsection titled
    with the attempt followed by one voice label per file of its group, in
    the order of the group; nothing else opens a subsection or shows a
    voice, and no file of a group is skipped or shown twice. *)
Theorem completed_section_outline (w : world) (folder title : string)
    (pattern : matcher) :
  let g := group_by_attempt (sorted String.leb (glob_json w folder)) pattern in
  result (display_grouped_samples w folder title pattern) = Done tt ->
  exists order,
    attempt_order g = Done order /\
    outline (calls (display_grouped_samples w folder title pattern)) =
      flat_map (attempt_outline g) order.
Proof.
  intros g. rewrite display_grouped_samples_calls. cbv zeta. fold g.
  destruct (sorted String.leb (glob_json w folder)) as [| f0 files] eqn:Hfiles.
  - intros _. exists []. split; reflexivity.
  - simpl result. unfold calls at 1. simpl fst.
    destruct (attempt_order g) as [order | e] eqn:Horder.
    + rewrite (show_groups_ordered _ _ _ _ Horder). intros H.
      exists order. split; [reflexivity |].
      change (outline (StHeader title :: ?l)) with (outline l).
      apply outline_for_each; [| exact H].
      intros attempt _ Hr. apply outline_show_attempt. exact Hr.
    + unfold show_groups. rewrite Horder. intros H. discriminate H.
Qed.

(* ================================================================ *)
(** ** The first file of a group, and keys that are not numbers *)
(* ================================================================ *)

Lemma show_attempt_calls (w : world) (folder : string) (g : groups)
    (attempt first : string) (rest : list string) (doc : json)
    (shown : list st_call) :
  lookup attempt g = Some (first :: rest) ->
  load_json w first = (shown, Done doc) ->
  result (show_prompt doc) = Done tt ->
  exists tail,
    calls (show_attempt w folder g attempt) =
    StSubheader (attempt_title attempt) ::
    shown ++ calls (show_prompt doc) ++
    voice_line first :: metadata_part w first ++ tail.
Proof.
  intros Hl Hload Hprompt.
  rewrite (show_attempt_begins _ _ _ _ _ _ Hl), Hload.
  rewrite calls_bind. simpl result. cbv beta iota.
  rewrite calls_bind. simpl result. cbv beta iota.
  rewrite calls_bind, Hprompt.
  rewrite calls_bind. simpl for_each.
  rewrite calls_bind. unfold show_sample at 1.
  rewrite calls_bind. simpl result. cbv beta iota.
  rewrite calls_bind, display_sample_parts.
  unfold calls at 1 2 3 4 5 6. simpl fst. unfold voice_line.
  eexists. simpl app. rewrite <- !app_assoc. simpl app. reflexivity.
Qed.

(** X10. A group whose first file does not load reports it three times:
    the load error before the placeholder prompt (line 61), and again the
    load error followed by "Could not load JSON data." under the voice of
    that file (lines 19-23), because the file is loaded once for the prompt
    and once more for its own sample. *)
Theorem failed_first_file_is_reported_thrice (w : world) (folder : string)
    (g : groups) (attempt first : string) (rest : list string) (e : exn) :
  lookup attempt g = Some (first :: rest) ->
  read_json w first = Raised e ->
  exists tail,
    calls (show_attempt w folder g attempt) =
    StSubheader (attempt_title attempt) ::
    load_error first e :: no_prompt ::
    voice_line first :: load_error first e :: could_not_load :: tail.
Proof.
  intros Hl Hr.
  destruct (show_attempt_calls w folder g attempt first rest JNull
              [load_error first e] Hl (load_json_raised _ _ _ Hr) eq_refl)
    as [tail Hc].
  exists tail. rewrite Hc. unfold metadata_part. rewrite Hr. reflexivity.
Qed.

(** X11. When the first file of a group decodes to an object, nothing is
    shown for the loading, the prompt line shows the value of its
    [input_text] key, of whatever type, or the placeholder when the object
    has no such key, and the rendering goes on to the voice of the first
    file. *)
Theorem object_first_file_prompt (w : world) (folder : string) (g : groups)
    (attempt first : string) (rest : list string)
    (fields : list (string * json)) :
  lookup attempt g = Some (first :: rest) ->
  read_json w first = Done (JObj fields) ->
  exists tail,
    calls (show_attempt w folder g attempt) =
    StSubheader (attempt_title attempt) ::
    match dict_get "input_text" fields with
    | Some prompt => StMarkdown [Lit "**Prompt:** "; Val prompt]
    | None => no_prompt
    end :: voice_line first :: tail.
Proof.
  intros Hl Hr.
  assert (Hp : result (show_prompt (JObj fields)) = Done tt).
  { rewrite show_prompt_object. destruct (dict_get "input_text" fields); reflexivity. }
  destruct (show_attempt_calls w folder g attempt first rest (JObj fields) []
              Hl (load_json_done _ _ _ Hr) Hp) as [tail Hc].
  rewrite Hc, show_prompt_object.
  destruct (dict_get "input_text" fields); eexists; reflexivity.
Qed.

Lemma decorate_raises (ks : list string) (k : string) (e : exn) :
  In k ks -> py_int k = Raised e -> exists e', decorate ks = Raised e'.
Proof.
  induction ks as [| x ks IH]; intros Hin Hk; [contradiction |]. simpl.
  destruct (py_int x) as [n | e0] eqn:Hx; [| exists e0; reflexivity].
  destruct Hin as [Hin | Hin]; [subst x; congruence |].
  destruct (IH Hin Hk) as [e' He']. rewrite He'. exists e'. reflexivity.
Qed.

(** X12. If some key of the grouping is not accepted by [int] (the pattern
    captures something that is not a number), the sort of line 56 raises
    before the loop starts: the page is the header of the section alone,
    not one subsection is rendered, and the exception ends the rendering. *)
Theorem non_numeric_key_stops_section (w : world) (folder title : string)
    (pattern : matcher) (k : string) (e : exn) :
  In k (keys (group_by_attempt (sorted String.leb (glob_json w folder)) pattern)) ->
  py_int k = Raised e ->
  exists e',
    display_grouped_samples w folder title pattern = ([StHeader title], Raised e').
Proof.
  intros Hk He. rewrite display_grouped_samples_calls. cbv zeta.
  destruct (sorted String.leb (glob_json w folder)) as [| f files];
    [contradiction |].
  destruct (decorate_raises _ k e Hk He) as [e' He'].
  exists e'. unfold show_groups, attempt_order. rewrite He'. reflexivity.
Qed.

End Dashboard.

(* ================================================================ *)
(** ** The statements on the sample data *)
(* ================================================================ *)

(** The scenario of two voices of one attempt: one subsection with the
    prompt, then each voice with its document and its audio. *)
Example two_voices_page :
  samples_section sample_loads two_voices =
  ([StHeader "Samples"; StSubheader "Attempt 1";
    StMarkdown [Lit "**Prompt:** "; Val (JStr "Hello world")];
    StMarkdown [Lit "**Voice:** "; Lit "af_alloy"];
    StJson hello_doc; StAudio "RIFF-alloy" "audio/wav"; StMarkdown [Lit "---"];
    StMarkdown [Lit "**Voice:** "; Lit "af_bright"];
    StJson hello_doc; StAudio "RIFF-bright" "audio/wav"; StMarkdown [Lit "---"];
    StMarkdown [Lit "###"]],
   Done tt).
Proof. reflexivity. Qed.

(** The loader on a readable sample and on a file without read permission. *)
Lemma load_json_contract_witness :
  load_json sample_loads two_voices alloy_json = ([], Done hello_doc) /\
  (exists e,
     read_json sample_loads three_attempts "samples/v-attempt-1.json" = Raised e /\
     load_json sample_loads three_attempts "samples/v-attempt-1.json" =
       ([load_error "samples/v-attempt-1.json" e], Done JNull)).
Proof.
  split.
  - apply (proj1 (load_json_contract sample_loads two_voices alloy_json)
             hello_text hello_doc); reflexivity.
  - apply (proj1 (proj2 (load_json_contract sample_loads three_attempts
                           "samples/v-attempt-1.json"))).
    right. right. left. exists hello_text. reflexivity.
Defined.

(** The empty-object sample: loaded, then shown as a load failure. *)
Lemma falsy_document_witness :
  load_json sample_loads empty_object alloy_json = ([], Done (JObj [])) /\
  calls (display_sample sample_loads empty_object alloy_json alloy_wav) =
    could_not_load :: calls (audio_part empty_object alloy_wav) /\
  existsb is_json_tree
    (calls (display_sample sample_loads empty_object alloy_json alloy_wav)) = false.
Proof.
  destruct (falsy_document_reads_as_failure sample_loads empty_object "samples"
              alloy_json alloy_wav "{}" (JObj []) eq_refl eq_refl eq_refl)
    as [_ [Hload [_ [Hcalls [Htree _]]]]].
  split; [exact Hload | split; [exact Hcalls | exact Htree]].
Defined.





(** C5, at the failing input. The file holds the valid document [{}]: the
    loader returns it without error, and the presenter shows
    "Could not load JSON data." in place of the tree. *)
Theorem empty_object_shown_as_load_failure :
  read_json sample_loads empty_object alloy_json = Done (JObj []) /\
  load_json sample_loads empty_object alloy_json = ([], Done (JObj [])) /\
  display_sample sample_loads empty_object alloy_json alloy_wav =
    ([could_not_load; StAudio "RIFF-alloy" "audio/wav"], Done tt).
Proof. split; [reflexivity | split; reflexivity]. Qed.

(** C6, at the failing input. The audio path exists and cannot be opened
    (a directory, or a file without read permission): after the metadata
    the presenter stops with the exception of [open]; neither a player nor
    the "WAV file not found" error is shown. *)
Theorem audio_that_cannot_be_opened_stops_presenter :
  path_exists audio_is_directory alloy_wav = true /\
  display_sample sample_loads audio_is_directory alloy_json alloy_wav =
    ([StJson hello_doc], Raised (IsADirectoryError alloy_wav)) /\
  path_exists audio_unreadable alloy_wav = true /\
  display_sample sample_loads audio_unreadable alloy_json alloy_wav =
    ([StJson hello_doc], Raised (PermissionError alloy_wav)).
Proof. split; [reflexivity | split; [reflexivity | split; reflexivity]]. Qed.

(** C7, at the failing input. When the first document of a group is a
    number, a boolean, a string that contains "input_text" or an array
    with the element "input_text", no prompt and no placeholder is shown:
    the test or the lookup of line 62-63 raises [TypeError]. *)
Theorem prompt_of_non_object_raises :
  show_attempt sample_loads number_document "samples"
    [("1", [alloy_json])] "1" =
    ([StSubheader "Attempt 1"],
     Raised (TypeError "argument of type 'int' is not iterable")) /\
  show_prompt (JBool true) =
    ([], Raised (TypeError "argument of type 'bool' is not iterable")) /\
  show_prompt (JStr "the input_text") =
    ([], Raised (TypeError "string indices must be integers, not 'str'")) /\
  show_prompt (JArr [JStr "input_text"]) =
    ([], Raised (TypeError "list indices must be integers or slices, not str")).
Proof. split; [reflexivity | split; [reflexivity | split; reflexivity]]. Qed.

(** C4, at the failing inputs. A sample whose document is the number 1,
    and a sample whose audio path is a directory: in both folders the
    rendering of the section ends with an exception that nothing catches,
    and the rest of the section is not rendered. *)
Theorem section_stopped_by_exception :
  samples_section sample_loads number_document =
    ([StHeader "Samples"; StSubheader "Attempt 1"],
     Raised (TypeError "argument of type 'int' is not iterable")) /\
  samples_section sample_loads audio_is_directory =
    ([StHeader "Samples"; StSubheader "Attempt 1";
      StMarkdown [Lit "**Prompt:** "; Val (JStr "Hello world")];
      StMarkdown [Lit "**Voice:** "; Lit "af_alloy"];
      StJson hello_doc],
     Raised (IsADirectoryError alloy_wav)).
Proof. split; reflexivity. Qed.

(** The folder of two voices satisfies both conditions and renders to its
    end. *)
Lemma samples_render_witness :
  result (display_grouped_samples sample_loads two_voices "samples" "Samples"
            attempt_pattern) = Done tt.
Proof.
  apply (samples_render_to_the_end sample_loads two_voices "samples" "Samples").
  - intros f doc Hf Hr. vm_compute in Hf.
    destruct Hf as [Hf | [Hf | []]]; subst f; vm_compute in Hr;
      inversion Hr; right; eexists; reflexivity.
  - intros f Hf. vm_compute in Hf.
    destruct Hf as [Hf | [Hf | []]]; subst f; right; eexists; reflexivity.
Defined.

(** A name whose voice contains the marker: group 1 is the whole voice, the
    label is its part before the first marker. *)
Lemma matched_name_witness :
  attempt_pattern "a-attempt-b-attempt-12.json" = Some ("a-attempt-b", "12") /\
  voice_of "a-attempt-b-attempt-12.json" = "a" /\
  voice_match "a-attempt-b-attempt-12.json" =
    Some (voice_of "a-attempt-b-attempt-12.json").
Proof.
  split; [reflexivity | split; [reflexivity |]].
  exact (proj1 (matched_name_has_voice "a-attempt-b-attempt-12.json"
                  "a-attempt-b" "12" eq_refl)).
Defined.


(** The group of attempt 1 in the folder of two voices: alloy before
    bright, though the folder lists bright first. *)
Lemma group_order_witness :
  group_by_attempt (sorted String.leb (glob_json two_voices "samples"))
    attempt_pattern =
    [("1", [alloy_json; "samples/af_bright-attempt-1.json"])] /\
  StronglySorted (fun a b => String.leb a b = true)
    [alloy_json; "samples/af_bright-attempt-1.json"].
Proof.
  split; [reflexivity |].
  apply (group_files_in_path_order two_voices "samples" attempt_pattern "1"
           [alloy_json; "samples/af_bright-attempt-1.json"]).
  left. reflexivity.
Defined.

(** The outline of the folder of three attempts. *)
Lemma section_outline_witness :
  outline (calls (samples_section sample_loads three_attempts)) =
    [Subsection "Attempt 1"; Voice "v"; Subsection "Attempt 2"; Voice "v";
     Subsection "Attempt 10"; Voice "v"] /\
  exists order,
    attempt_order
      (group_by_attempt (sorted String.leb (glob_json three_attempts "samples"))
         attempt_pattern) = Done order /\
    outline (calls (display_grouped_samples sample_loads three_attempts
                      "samples" "Samples" attempt_pattern)) =
      flat_map
        (attempt_outline
           (group_by_attempt
              (sorted String.leb (glob_json three_attempts "samples"))
              attempt_pattern)) order.
Proof.
  split; [reflexivity |].
  apply (completed_section_outline sample_loads three_attempts "samples"
           "Samples" attempt_pattern).
  reflexivity.
Defined.

(** Attempt 1 of the folder of three attempts: its only file cannot be
    read. *)
Lemma failed_first_file_witness :
  exists tail,
    calls (show_attempt sample_loads three_attempts "samples"
             [("1", ["samples/v-attempt-1.json"])] "1") =
    StSubheader "Attempt 1" ::
    load_error "samples/v-attempt-1.json"
      (PermissionError "samples/v-attempt-1.json") :: no_prompt ::
    voice_line "samples/v-attempt-1.json" ::
    load_error "samples/v-attempt-1.json"
      (PermissionError "samples/v-attempt-1.json") :: could_not_load :: tail.
Proof.
  exact (failed_first_file_is_reported_thrice sample_loads three_attempts
           "samples" [("1", ["samples/v-attempt-1.json"])] "1"
           "samples/v-attempt-1.json" [] (PermissionError "samples/v-attempt-1.json")
           eq_refl eq_refl).
Defined.

(** Attempt 1 of the folder of two voices: the prompt is the value of
    [input_text]. *)
Lemma object_first_file_witness :
  exists tail,
    calls (show_attempt sample_loads two_voices "samples"
             [("1", [alloy_json; "samples/af_bright-attempt-1.json"])] "1") =
    StSubheader "Attempt 1" ::
    StMarkdown [Lit "**Prompt:** "; Val (JStr "Hello world")] ::
    voice_line alloy_json :: tail.
Proof.
  exact (object_first_file_prompt sample_loads two_voices "samples"
           [("1", [alloy_json; "samples/af_bright-attempt-1.json"])] "1"
           alloy_json ["samples/af_bright-attempt-1.json"]
           [("input_text", JStr "Hello world")] eq_refl eq_refl).
Defined.

(** With a pattern that takes the whole name as the attempt, the folder
    [bad_name] renders its header and stops on the [ValueError] of [int]. *)
Lemma non_numeric_key_witness :
  display_grouped_samples sample_loads bad_name "samples" "Samples"
    whole_name_pattern =
    ([StHeader "Samples"],
     Raised (ValueError "invalid literal for int() with base 10")) /\
  exists e',
    display_grouped_samples sample_loads bad_name "samples" "Samples"
      whole_name_pattern = ([StHeader "Samples"], Raised e').
Proof.
  split; [reflexivity |].
  apply (non_numeric_key_stops_section sample_loads bad_name "samples" "Samples"
           whole_name_pattern "badname.json"
           (ValueError "invalid literal for int() with base 10")).
  - left. reflexivity.
  - reflexivity.
Defined.
